(** * List parameters of a resource view: merge of URL, store and defaults

    A shallow embedding of the hook [useListParams] and of the helpers its
    module exports: [parseQueryFromLocation], [hasCustomParams], [getQuery]
    and [getNumberOrDefault].

    JavaScript values are a small tagged union; plain objects are
    association lists in insertion order, without repeated keys.  Code that
    can throw lives in an error monad, so that "does not throw" is a
    statement about the model and not a consequence of its type. *)

From Stdlib Require Import ZArith List String Ascii Bool Lia DecimalString.
From Stdlib Require Import QArith Qround.
From Stdlib Require DecimalPos.
Import ListNotations.
Close Scope Q_scope.
Local Open Scope string_scope.
Local Open Scope Z_scope.
Set Warnings "-register-all".

(** ** JavaScript values *)

(** Numbers: NaN, the integers, the other finite numbers given by their
    value, and the two infinities.  The numbers of JavaScript are the
    doubles among them.  Nothing in this module computes with numbers: it
    reads them with [parseInt], tests them and prints them. *)
Inductive number : Type :=
| NaN
| Int (z : Z)
| Frac (q : Q)
| Inf (negative : bool).

Inductive value : Type :=
| VUndefined
| VNull
| VBool (b : bool)
| VNum (n : number)
| VStr (s : string)
| VArr (items : list value)
| VObj (props : list (string * value)).

Definition obj : Type := list (string * value).

Definition VInt (z : Z) : value := VNum (Int z).

(** ToBoolean. *)
Definition truthy (v : value) : bool :=
  match v with
  | VUndefined | VNull => false
  | VBool b => b
  | VNum NaN => false
  | VNum (Int z) => negb (z =? 0)
  | VNum (Frac q) => negb (Qeq_bool q 0)
  | VNum (Inf _) => true
  | VStr s => negb (s =? "")%string
  | VArr _ | VObj _ => true
  end.

Definition typeof (v : value) : string :=
  match v with
  | VUndefined => "undefined"
  | VBool _ => "boolean"
  | VNum _ => "number"
  | VStr _ => "string"
  | VNull | VArr _ | VObj _ => "object"
  end.

(** [a || b]; both operands are pure values here. *)
Definition js_or (a b : value) : value := if truthy a then a else b.

(** [v != null]. *)
Definition not_nullish (v : value) : bool :=
  match v with
  | VUndefined | VNull => false
  | _ => true
  end.

(** [v !== n] for a number literal [n]. *)
Definition strict_neq_int (v : value) (n : Z) : bool :=
  match v with
  | VNum (Int z) => negb (z =? n)
  | VNum (Frac q) => negb (Qeq_bool q (inject_Z n))
  | _ => true
  end.

Definition is_object (v : value) : bool :=
  match v with VObj _ => true | _ => false end.

Fixpoint join (sep : string) (l : list string) : string :=
  match l with
  | [] => ""
  | [x] => x
  | x :: rest => x ++ sep ++ join sep rest
  end.

Definition decimal (z : Z) : string :=
  NilZero.string_of_int (Z.to_int z).

(** *** Numbers as doubles, and their text *)

Definition pow10 (n : Z) : Q :=
  if 0 <=? n then inject_Z (10 ^ n) else Qmake 1 (Z.to_pos (10 ^ (- n))).

Definition pow2 (n : Z) : Q :=
  if 0 <=? n then inject_Z (2 ^ n) else Qmake 1 (Z.to_pos (2 ^ (- n))).

(** The integer nearest to a fraction that is not negative, the even one
    of two that are as near. *)
Definition round_half_even (x : Q) : Z :=
  let n := Qnum x in
  let d := Zpos (Qden x) in
  let m := n / d in
  let r := n mod d in
  if (d <? 2 * r) || ((2 * r =? d) && Z.odd m) then m + 1 else m.

(** The [e] with [2^e <= x < 2^(e+1)], for a positive [x]. *)
Definition floor_log2 (x : Q) : Z :=
  let e := Z.log2 (Qnum x) - Z.log2 (Zpos (Qden x)) in
  if Qle_bool (pow2 e) x then e else e - 1.

(** The double nearest to a positive fraction: 53 bits of mantissa, ties
    to the even mantissa, exponents from -1074 up; [None] beyond the
    largest double. *)
Definition nearest_double (x : Q) : option Q :=
  let u := Z.max (floor_log2 x - 52) (-1074) in
  let m := round_half_even (Qred (Qdiv x (pow2 u))) in
  let v := Qred (Qmult (inject_Z m) (pow2 u)) in
  if Qle_bool (pow2 1024) v then None else Some v.

(** The [n] with [10^(n-1) <= x < 10^n], searched from [n]. *)
Fixpoint magnitude (fuel : nat) (n : Z) (x : Q) : Z :=
  match fuel with
  | O => n
  | S fuel =>
      if Qle_bool (pow10 n) x then magnitude fuel (n + 1) x
      else if Qle_bool (pow10 (n - 1)) x then n
           else magnitude fuel (n - 1) x
  end.

(** [s * 10^(n-k)]: the number written with the [k] digits of [s] and the
    decimal point after the first [n] of them. *)
Definition scaled (s n k : Z) : Q :=
  Qred (Qmult (inject_Z s) (pow10 (n - k))).

Definition reads_as (x : Q) (s n k : Z) : bool :=
  match nearest_double (scaled s n k) with
  | Some v => Qeq_bool v x
  | None => false
  end.

(** The [k]-digit number nearest to [x] among those whose double is [x],
    if there is one: it is next below or next above [x]. *)
Definition candidate (x : Q) (n k : Z) : option (Z * Z) :=
  let lo := Qfloor (Qdiv x (pow10 (n - k))) in
  let hi := lo + 1 in
  let below := (lo, n) in
  let above := if hi =? 10 ^ k then (10 ^ (k - 1), n + 1) else (hi, n) in
  match reads_as x lo n k, reads_as x (fst above) (snd above) k with
  | true, true =>
      let d_lo := Qminus x (scaled lo n k) in
      let d_hi := Qminus (scaled (fst above) (snd above) k) x in
      if Qeq_bool d_lo d_hi then Some (if Z.even lo then below else above)
      else if Qle_bool d_lo d_hi then Some below else Some above
  | true, false => Some below
  | false, true => Some above
  | false, false => None
  end.

(** The fewest digits that read back as [x]. *)
Fixpoint shortest (fuel : nat) (k : Z) (x : Q) (n : Z) : Z * Z * Z :=
  match fuel with
  | O => (Qfloor (Qdiv x (pow10 (n - k))), n, k)
  | S fuel =>
      match candidate x n k with
      | Some (s, n') => (s, n', k)
      | None => shortest fuel (k + 1) x n
      end
  end.

Fixpoint zeros (n : nat) : string :=
  match n with
  | O => ""
  | S m => String "0" (zeros m)
  end.

(** Number::toString on the digits: plain up to 21 digits before the
    point and down to 6 zeros after it, with an exponent otherwise. *)
Definition render (s n k : Z) : string :=
  let digits := decimal s in
  if (k <=? n) && (n <=? 21) then digits ++ zeros (Z.to_nat (n - k))
  else if (0 <? n) && (n <=? 21)
  then substring 0 (Z.to_nat n) digits ++ "."
       ++ substring (Z.to_nat n) (Z.to_nat (k - n)) digits
  else if (-6 <? n) && (n <=? 0)
  then "0." ++ zeros (Z.to_nat (- n)) ++ digits
  else
    let e := n - 1 in
    (if k =? 1 then digits
     else substring 0 1 digits ++ "."
          ++ substring 1 (Z.to_nat (k - 1)) digits)
    ++ "e" ++ (if e <? 0 then "-" else "+") ++ decimal (Z.abs e).

Definition positive_text (x : Q) : string :=
  let '(s, n, k) := shortest 17 1 x (magnitude 700 1 x) in render s n k.

Definition finite_text (x : Q) : string :=
  if Qeq_bool x 0 then "0"
  else if Qle_bool x 0 then "-" ++ positive_text (Qopp x)
  else positive_text x.

(** An integer up to 2^53 is printed with all its digits. *)
Definition number_text (n : number) : string :=
  match n with
  | NaN => "NaN"
  | Inf negative => if negative then "-Infinity" else "Infinity"
  | Int z =>
      if Z.abs z <=? 9007199254740992 then decimal z
      else finite_text (inject_Z z)
  | Frac q => finite_text q
  end.

(** ToString. *)
Fixpoint to_string (v : value) : string :=
  match v with
  | VUndefined => "undefined"
  | VNull => "null"
  | VBool true => "true"
  | VBool false => "false"
  | VNum n => number_text n
  | VStr s => s
  | VArr l =>
      join ","
        (map (fun x => match x with
                       | VUndefined | VNull => ""
                       | _ => to_string x
                       end) l)
  | VObj _ => "[object Object]"
  end.

(** ** Plain objects *)

Fixpoint get (o : obj) (k : string) : value :=
  match o with
  | [] => VUndefined
  | (k', v) :: rest => if (k' =? k)%string then v else get rest k
  end.

Fixpoint has_key (o : obj) (k : string) : bool :=
  match o with
  | [] => false
  | (k', _) :: rest => (k' =? k)%string || has_key rest k
  end.

(** [o[k] = v]: an existing key keeps its place, a new one goes last. *)
Fixpoint set (o : obj) (k : string) (v : value) : obj :=
  match o with
  | [] => [(k, v)]
  | (k', v') :: rest =>
      if (k' =? k)%string then (k, v) :: rest else (k', v') :: set rest k v
  end.

(** [delete o[k]]. *)
Fixpoint del (o : obj) (k : string) : obj :=
  match o with
  | [] => []
  | (k', v') :: rest =>
      if (k' =? k)%string then del rest k else (k', v') :: del rest k
  end.

Definition keys (o : obj) : list string := map fst o.

(** Decimal rendering of an array index. *)
Fixpoint index_names (n : nat) : list string :=
  match n with
  | O => []
  | S m => index_names m ++ [NilEmpty.string_of_uint (Nat.to_uint m)]
  end.

Fixpoint chars (s : string) : list value :=
  match s with
  | EmptyString => []
  | String c rest => VStr (String c EmptyString) :: chars rest
  end.

(** Own enumerable properties of a value, as [{...v}] copies them. *)
Definition spread (v : value) : obj :=
  match v with
  | VObj o => o
  | VArr l => combine (index_names (List.length l)) l
  | VStr s => combine (index_names (String.length s)) (chars s)
  | _ => []
  end.

(** ** Exceptions *)

Inductive exn : Type :=
| SyntaxError
| TypeError.

Inductive result (A : Type) : Type :=
| Ok (a : A)
| Throw (e : exn).

Arguments Ok {A} a.
Arguments Throw {A} e.

Definition bind {A B : Type} (m : result A) (f : A -> result B) : result B :=
  match m with
  | Ok a => f a
  | Throw e => Throw e
  end.

(** [try { m } catch (err) { h err }]. *)
Definition try_catch {A : Type} (m : result A) (h : exn -> result A)
  : result A :=
  match m with
  | Ok a => Ok a
  | Throw e => h e
  end.

Notation "x <- m ;; k" := (bind m (fun x => k))
  (at level 61, m at next level, right associativity).

Definition returns {A : Type} (m : result A) : Prop := exists a, m = Ok a.

(** [v.k].  Reading a property of [undefined] or [null] throws.  Members
    inherited from a prototype are not modelled: of the names read by this
    module only [filter] and [sort] are inherited, and only by arrays. *)
Definition get_prop (v : value) (k : string) : result value :=
  match v with
  | VUndefined | VNull => Throw TypeError
  | VObj o => Ok (get o k)
  | _ => Ok VUndefined
  end.

(** [Object.keys(v)]. *)
Definition Object_keys (v : value) : result (list string) :=
  match v with
  | VUndefined | VNull => Throw TypeError
  | _ => Ok (keys (spread v))
  end.

(** ** parseInt(s, 10) *)

(** A string is the UTF-8 text of the JavaScript string.  The white space
    and line terminators that [parseInt] and [trim] skip are TAB, LF, VT,
    FF, CR and SP, which take one byte, U+00A0, which takes two, and
    U+1680, U+2000 to U+200A, U+2028, U+2029, U+202F, U+205F, U+3000 and
    U+FEFF, which take three. *)
Definition is_space (c : ascii) : bool :=
  let n := nat_of_ascii c in
  (((9 <=? n) && (n <=? 13)) || (n =? 32))%nat.

Definition is_space2 (a b : ascii) : bool :=
  ((nat_of_ascii a =? 194) && (nat_of_ascii b =? 160))%nat.

Definition is_space3 (a b c : ascii) : bool :=
  let x := nat_of_ascii a in
  let y := nat_of_ascii b in
  let z := nat_of_ascii c in
  (((x =? 225) && (y =? 154) && (z =? 128))
   || ((x =? 226) && (y =? 128)
       && (((128 <=? z) && (z <=? 138)) || (z =? 168) || (z =? 169)
           || (z =? 175)))
   || ((x =? 226) && (y =? 129) && (z =? 159))
   || ((x =? 227) && (y =? 128) && (z =? 128))
   || ((x =? 239) && (y =? 187) && (z =? 191)))%nat.

Definition digit_of (c : ascii) : option Z :=
  let n := Z.of_nat (nat_of_ascii c) in
  if (48 <=? n) && (n <=? 57) then Some (n - 48) else None.

Fixpoint skip_spaces (s : string) : string :=
  match s with
  | String a rest =>
      if is_space a then skip_spaces rest
      else
        match rest with
        | String b rest2 =>
            if is_space2 a b then skip_spaces rest2
            else
              match rest2 with
              | String c rest3 =>
                  if is_space3 a b c then skip_spaces rest3 else s
              | EmptyString => s
              end
        | EmptyString => s
        end
  | EmptyString => s
  end.

(** The double nearest to an integer: the integer itself up to 2^53,
    beyond that 53 bits of mantissa with ties to the even mantissa, and an
    infinity beyond the largest double. *)
Definition round_double (z : Z) : number :=
  let n := Z.abs z in
  if n <=? 9007199254740992 then Int z
  else
    let u := Z.log2 n - 52 in
    let m := n / 2 ^ u in
    let r := n mod 2 ^ u in
    let half := 2 ^ (u - 1) in
    let m' := if (half <? r) || ((r =? half) && Z.odd m) then m + 1 else m in
    let v := m' * 2 ^ u in
    if 2 ^ 1024 <=? v then Inf (z <? 0)
    else Int (if z <? 0 then - v else v).

(** The longest prefix of decimal digits, read as a number; [None] when the
    prefix is empty. *)
Fixpoint leading_digits (s : string) (acc : option Z) : option Z :=
  match s with
  | EmptyString => acc
  | String c rest =>
      match digit_of c with
      | Some d =>
          leading_digits rest
            (Some (10 * match acc with Some a => a | None => 0 end + d))
      | None => acc
      end
  end.

Definition parseInt (s : string) : number :=
  let s := skip_spaces s in
  let '(negative, s) :=
    match s with
    | String "-"%char rest => (true, rest)
    | String "+"%char rest => (false, rest)
    | _ => (false, s)
    end in
  match leading_digits s None with
  | None => NaN
  | Some n => round_double (if negative then - n else n)
  end.

(** ** getNumberOrDefault *)

Definition getNumberOrDefault (possibleNumber defaultValue : value) : value :=
  js_or
    (match possibleNumber with
     | VStr s => VNum (parseInt s)
     | _ => possibleNumber
     end)
    defaultValue.

(** ** hasCustomParams *)

(** The source reads the properties one by one as the [||] chain proceeds;
    once [params] is truthy none of the reads can throw, so they are all
    made first here. *)
Definition hasCustomParams (params : value) : result value :=
  if truthy params then
    filter <- get_prop params "filter" ;;
    if truthy filter then
      ks <- Object_keys filter ;;
      order <- get_prop params "order" ;;
      page <- get_prop params "page" ;;
      perPage <- get_prop params "perPage" ;;
      sort <- get_prop params "sort" ;;
      Ok (VBool ((0 <? Z.of_nat (List.length ks))
                 || not_nullish order
                 || strict_neq_int page 1
                 || not_nullish perPage
                 || not_nullish sort))
    else Ok filter
  else Ok params.

(** ** lodash: pickBy and isEqual *)

Definition pickBy (o : obj) (predicate : value -> string -> bool) : obj :=
  List.filter (fun kv => predicate (snd kv) (fst kv)) o.

(** [list.indexOf(k)], with -1 for an absent element. *)
Fixpoint indexOf (l : list string) (k : string) : Z :=
  match l with
  | [] => -1
  | x :: rest =>
      if (x =? k)%string then 0
      else let i := indexOf rest k in if i =? -1 then -1 else i + 1
  end.

Definition number_eqb (x y : number) : bool :=
  match x, y with
  | NaN, NaN => true
  | Int a, Int b => a =? b
  | Int a, Frac q | Frac q, Int a => Qeq_bool (inject_Z a) q
  | Frac p, Frac q => Qeq_bool p q
  | Inf a, Inf b => Bool.eqb a b
  | _, _ => false
  end.

(** Deep comparison.  Objects are equal when they have as many keys, and
    every key of the first is a key of the second with an equal value. *)
Fixpoint isEqual (a b : value) {struct a} : bool :=
  match a, b with
  | VUndefined, VUndefined => true
  | VNull, VNull => true
  | VBool x, VBool y => Bool.eqb x y
  | VNum x, VNum y => number_eqb x y
  | VStr x, VStr y => (x =? y)%string
  | VArr l1, VArr l2 =>
      (fix items (xs ys : list value) {struct xs} : bool :=
         match xs, ys with
         | [], [] => true
         | x :: xs', y :: ys' => isEqual x y && items xs' ys'
         | _, _ => false
         end) l1 l2
  | VObj o1, VObj o2 =>
      (Nat.eqb (List.length o1) (List.length o2))
      && (fix props (o : obj) {struct o} : bool :=
            match o with
            | [] => true
            | (k, v) :: rest =>
                has_key o2 k && isEqual v (get o2 k) && props rest
            end) o1
  | _, _ => false
  end.

(** ** The caller's default sort *)

Record Sort : Type := mkSort { field : string; order : string }.

Definition SORT_ASC : string := "ASC".

Definition defaultSort : Sort := {| field := "id"; order := SORT_ASC |}.

Definition emptyObject : value := VObj [].

Definition validQueryParams : list string :=
  ["page"; "perPage"; "sort"; "order"; "filter"].

(** ** Reducer and helpers of the repository that this module imports *)

Inductive action : Type :=
| SET_SORT (newSort : Sort)
| SET_PAGE (newPage : value)
| SET_PER_PAGE (newPerPage : value)
| SET_FILTER (payload : value).

(** Modelled from the spec: [queryReducer] (reducer/admin/resource/list) is
    not part of the sources at hand.  The spec gives one line per action:
    SET_SORT replaces [sort] and [order], SET_PAGE replaces [page],
    SET_PER_PAGE replaces [perPage], and SET_FILTER commits the payload as
    the new [filter]. *)
Definition queryReducer (previousState : obj) (a : action) : obj :=
  match a with
  | SET_SORT newSort =>
      set (set previousState "sort" (VStr (field newSort)))
        "order" (VStr (order newSort))
  | SET_PAGE newPage => set previousState "page" newPage
  | SET_PER_PAGE newPerPage => set previousState "perPage" newPerPage
  | SET_FILTER payload => set previousState "filter" payload
  end.

(** The values the spec calls empty: the empty string, the empty array,
    null, undefined and the empty object. *)
Definition is_empty (v : value) : bool :=
  match v with
  | VStr "" | VArr [] | VNull | VUndefined | VObj [] => true
  | _ => false
  end.

(** Modelled from the spec: [removeEmpty] (util/removeEmpty) is not part of
    the sources at hand.  It strips the entries of a filter object whose
    value is empty; the spec defines it on filter objects, other values are
    returned as they are. *)
Definition removeEmpty (filters : value) : value :=
  match filters with
  | VObj o => VObj (List.filter (fun kv => negb (is_empty (snd kv))) o)
  | _ => filters
  end.

(** Modelled from the spec: [removeKey] (util/removeKey) is not part of the
    sources at hand.  It removes key [name] from the filter values; the
    spec defines it on filter objects, other values are returned as they
    are. *)
Definition removeKey (target : value) (name : string) : value :=
  match target with
  | VObj o => VObj (del o name)
  | _ => target
  end.

(** ** Effects of the hook: what it dispatches *)

Inductive effect : Type :=
| Push (search : string)
| ChangeListParams (resource : string) (newParams : obj).

Section UseListParams.

(** The libraries behind the hook: [parse] and [stringify] of
    query-string, and the built-in [JSON.parse] (which throws on text that
    is not JSON) and [JSON.stringify]. *)
Variable parse : string -> obj.
Variable JSON_parse : string -> result value.
Variable stringify : obj -> string.
Variable JSON_stringify : value -> value.

(** *** parseQueryFromLocation *)

Definition parseQueryFromLocation (search : string) : result obj :=
  let query :=
    pickBy (parse search)
      (fun v k => negb (indexOf validQueryParams k =? -1)) in
  let filter := get query "filter" in
  if truthy filter && (typeof filter =? "string")%string then
    try_catch
      (parsed <- JSON_parse (to_string filter) ;;
       Ok (set query "filter" parsed))
      (fun err => Ok (del query "filter"))
  else Ok query.

(** *** getQuery *)

(** The value bound to [query] before the defaults are filled in. *)
Definition workingQuery (queryFromLocation : obj)
           (params filterDefaultValues : value) : result obj :=
  if 0 <? Z.of_nat (List.length (keys queryFromLocation))
  then Ok queryFromLocation
  else
    custom <- hasCustomParams params ;;
    if truthy custom then Ok (spread params)
    else Ok [("filter", js_or filterDefaultValues (VObj []))].

Definition fillDefaults (query : obj) (sort : Sort) (perPage : value)
  : obj :=
  let query :=
    if negb (truthy (get query "sort"))
    then set (set query "sort" (VStr (field sort)))
           "order" (VStr (order sort))
    else query in
  let query :=
    if negb (truthy (get query "perPage"))
    then set query "perPage" perPage
    else query in
  let query :=
    if negb (truthy (get query "page"))
    then set query "page" (VInt 1)
    else query in
  set (set query "page" (getNumberOrDefault (get query "page") (VInt 1)))
    "perPage" (getNumberOrDefault (get query "perPage") (VInt 10)).

Definition getQuery (search : string) (params filterDefaultValues : value)
           (sort : Sort) (perPage : value) : result obj :=
  queryFromLocation <- parseQueryFromLocation search ;;
  query <- workingQuery queryFromLocation params filterDefaultValues ;;
  Ok (fillDefaults query sort perPage).

(** *** The hook *)

Record ListParamsOptions : Type := mkOptions {
  resource : string;
  filterDefaultValues : value;
  sort : option Sort;
  perPage : value;
  debounce : option Z
}.

Definition sort_of (o : ListParamsOptions) : Sort :=
  match sort o with Some s => s | None => defaultSort end.

Definition perPage_of (o : ListParamsOptions) : value :=
  match perPage o with VUndefined => VInt 10 | v => v end.

Definition debounce_of (o : ListParamsOptions) : Z :=
  match debounce o with Some d => d | None => 500 end.

(** What one instance of the hook reads and owns: the search string of
    the location, the params of the resource in the store, the map of
    displayed filters, and the last call of the debounced [setFilters]
    that has not run yet, with the time it was made.  [log] records
    every dispatch. *)
Record world : Type := mkWorld {
  search : string;
  params : value;
  displayedFilters : obj;
  pending : option (value * Z);
  log : list effect
}.

Variable options : ListParamsOptions.

Definition query_of (w : world) : result obj :=
  getQuery (search w) (params w) (filterDefaultValues options)
    (sort_of options) (perPage_of options).

Definition filterValues_of (query : obj) : value :=
  js_or (get query "filter") emptyObject.

Definition changeParams (query : obj) (a : action) : list effect :=
  let newParams := queryReducer query a in
  [ Push ("?" ++ stringify
                   (set newParams "filter"
                      (JSON_stringify (get newParams "filter"))));
    ChangeListParams (resource options) newParams ].

(** The function handed to the debouncer. *)
Definition applyFilters (query : obj) (filters : value) : list effect :=
  if isEqual filters (filterValues_of query) then []
  else changeParams query (SET_FILTER (removeEmpty filters)).

(** Modelled from the spec: the router and the store are collaborators
    of the hook.  A push replaces the search string of the location, and
    [changeListParams] replaces the params kept for the resource. *)
Definition perform (w : world) (e : effect) : world :=
  match e with
  | Push s =>
      mkWorld s (params w) (displayedFilters w) (pending w) (log w ++ [e])
  | ChangeListParams _ newParams =>
      mkWorld (search w) (VObj newParams) (displayedFilters w) (pending w)
        (log w ++ [e])
  end.

(** lodash's debounce with its default options: the function runs once
    the wait has passed with no further call, on the arguments of the
    last call.  [elapse now] lets the clock reach [now]. *)
Definition elapse (now : Z) (w : world) : result world :=
  match pending w with
  | Some (filters, calledAt) =>
      if calledAt + debounce_of options <=? now then
        query <- query_of w ;;
        Ok (fold_left perform (applyFilters query filters)
              (mkWorld (search w) (params w) (displayedFilters w) None
                 (log w)))
      else Ok w
  | None => Ok w
  end.

Definition setFilters (now : Z) (filters : value) (w : world)
  : result world :=
  w <- elapse now w ;;
  Ok (mkWorld (search w) (params w) (displayedFilters w)
        (Some (filters, now)) (log w)).

Definition setDisplayedFilters (d : obj) (w : world) : world :=
  mkWorld (search w) (params w) d (pending w) (log w).

Definition hideFilter (now : Z) (filterName : string) (w : world)
  : result world :=
  w <- elapse now w ;;
  query <- query_of w ;;
  let filterValues := filterValues_of query in
  let w := setDisplayedFilters [(filterName, VBool false)] w in
  let newFilters := removeKey filterValues filterName in
  setFilters now newFilters w.

Definition showFilter (now : Z) (filterName : string)
           (defaultValue : value) (w : world) : result world :=
  w <- elapse now w ;;
  query <- query_of w ;;
  let filterValues := filterValues_of query in
  let w := setDisplayedFilters [(filterName, VBool true)] w in
  match defaultValue with
  | VUndefined => Ok w
  | _ => setFilters now (VObj (set (spread filterValues) filterName
                                 defaultValue)) w
  end.

(** A burst of [setFilters] calls, each with its time. *)
Fixpoint setFiltersAll (calls : list (Z * value)) (w : world)
  : result world :=
  match calls with
  | [] => Ok w
  | (now, filters) :: rest =>
      w <- setFilters now filters w ;; setFiltersAll rest w
  end.

End UseListParams.

(** ** Reference libraries

    Executable stand-ins for query-string and for the JSON built-in, used
    to run the hook on concrete locations.  The general results below hold
    for every [parse], [stringify], [JSON.parse] and [JSON.stringify]; the
    stand-ins cover byte strings, and JSON text whose numbers are integers
    and whose strings have no [\u] escape. *)

Definition dquote : ascii := ascii_of_nat 34.
Definition backslash : ascii := ascii_of_nat 92.

Definition quoted (s : string) : string :=
  String dquote (s ++ String dquote EmptyString).

(** [s.split(c)]. *)
Fixpoint split_on (c : ascii) (s : string) : list string :=
  match s with
  | EmptyString => [""]
  | String x rest =>
      if Ascii.eqb x c then "" :: split_on c rest
      else match split_on c rest with
           | [] => [String x ""]
           | piece :: pieces => String x piece :: pieces
           end
  end.

(** [s] without the white space at its end. *)
Fixpoint trim_end (s : string) : string :=
  match s with
  | EmptyString => EmptyString
  | String c rest =>
      if (skip_spaces s =? "")%string then EmptyString
      else String c (trim_end rest)
  end.

Definition trim (s : string) : string := trim_end (skip_spaces s).

Definition hex_upper (n : nat) : ascii :=
  ascii_of_nat (if (n <? 10)%nat then 48 + n else 55 + n).

Definition hex_lower (n : nat) : ascii :=
  ascii_of_nat (if (n <? 10)%nat then 48 + n else 87 + n).

Definition hex_value (c : ascii) : option nat :=
  let n := nat_of_ascii c in
  if ((48 <=? n) && (n <=? 57))%nat then Some (n - 48)%nat
  else if ((65 <=? n) && (n <=? 70))%nat then Some (n - 55)%nat
  else if ((97 <=? n) && (n <=? 102))%nat then Some (n - 87)%nat
  else None.

(** Insertion sort of keys, bytewise. *)
Fixpoint insert_key (k : string) (l : list string) : list string :=
  match l with
  | [] => [k]
  | x :: rest =>
      if String.leb k x then k :: l else x :: insert_key k rest
  end.

Definition sort_keys (l : list string) : list string :=
  fold_right insert_key [] l.

Module QueryString.

(** [%XX] escapes become bytes; a [%] that starts no escape stays. *)
Fixpoint decode (s : string) : string :=
  match s with
  | String "%"%char (String a (String b rest) as after_pc) =>
      match hex_value a, hex_value b with
      | Some h, Some l => String (ascii_of_nat (16 * h + l)) (decode rest)
      | _, _ => String "%"%char (decode after_pc)
      end
  | String c rest => String c (decode rest)
  | EmptyString => EmptyString
  end.

Fixpoint plus_to_space (s : string) : string :=
  match s with
  | String "+"%char rest => String " "%char (plus_to_space rest)
  | String c rest => String c (plus_to_space rest)
  | EmptyString => EmptyString
  end.

(** A repeated key collects its values in an array. *)
Definition accumulate (ret : obj) (key : string) (v : value) : obj :=
  if has_key ret key then
    match get ret key with
    | VArr l => set ret key (VArr (l ++ [v]))
    | old => set ret key (VArr [old; v])
    end
  else set ret key v.

Definition parse_param (ret : obj) (param : string) : obj :=
  match split_on "="%char (plus_to_space param) with
  | [] => ret
  | [key] => accumulate ret (decode key) VNull
  | key :: parts => accumulate ret (decode key) (VStr (decode (join "=" parts)))
  end.

Definition strip_mark (s : string) : string :=
  match s with
  | String "?"%char rest | String "#"%char rest | String "&"%char rest =>
      rest
  | _ => s
  end.

Definition parse (str : string) : obj :=
  let str := strip_mark (trim str) in
  if (str =? "")%string then []
  else
    let ret := fold_left parse_param (split_on "&"%char str) [] in
    map (fun k => (k, get ret k)) (sort_keys (keys ret)).

Definition unreserved (c : ascii) : bool :=
  let n := nat_of_ascii c in
  (((48 <=? n) && (n <=? 57)) || ((65 <=? n) && (n <=? 90))
   || ((97 <=? n) && (n <=? 122))
   || (n =? 45) || (n =? 95) || (n =? 46) || (n =? 126))%nat.

(** Strict URI encoding of a byte string. *)
Fixpoint encode_string (s : string) : string :=
  match s with
  | EmptyString => EmptyString
  | String c rest =>
      if unreserved c then String c (encode_string rest)
      else
        let n := nat_of_ascii c in
        String "%"%char
          (String (hex_upper (n / 16))
             (String (hex_upper (n mod 16)) (encode_string rest)))
  end.

Definition encode (v : value) : string := encode_string (to_string v).

Definition stringify_entry (o : obj) (key : string) : string :=
  match get o key with
  | VUndefined => ""
  | VNull => encode_string key
  | VArr l =>
      join "&"
        (map (fun v => match v with
                       | VNull => encode_string key
                       | _ => encode_string key ++ "=" ++ encode v
                       end)
           (List.filter (fun v => match v with
                                  | VUndefined => false
                                  | _ => true
                                  end) l))
  | v => encode_string key ++ "=" ++ encode v
  end.

Definition stringify (o : obj) : string :=
  join "&"
    (List.filter (fun x => negb (x =? "")%string)
       (map (stringify_entry o) (sort_keys (keys o)))).

End QueryString.

Module JSON.

Definition is_json_space (c : ascii) : bool :=
  let n := nat_of_ascii c in
  ((n =? 32) || (n =? 9) || (n =? 10) || (n =? 13))%nat.

Fixpoint skip (s : string) : string :=
  match s with
  | String c rest => if is_json_space c then skip rest else s
  | EmptyString => s
  end.

(** [s] without the prefix [p], when it starts with it. *)
Fixpoint after_prefix (p s : string) : option string :=
  match p, s with
  | EmptyString, _ => Some s
  | String a p', String b s' =>
      if Ascii.eqb a b then after_prefix p' s' else None
  | _, EmptyString => None
  end.

Definition unescape (c : ascii) : option ascii :=
  match c with
  | "b"%char => Some (ascii_of_nat 8)
  | "f"%char => Some (ascii_of_nat 12)
  | "n"%char => Some (ascii_of_nat 10)
  | "r"%char => Some (ascii_of_nat 13)
  | "t"%char => Some (ascii_of_nat 9)
  | "/"%char => Some "/"%char
  | _ =>
      if Ascii.eqb c dquote then Some dquote
      else if Ascii.eqb c backslash then Some backslash
      else None
  end.

(** The text of a string literal, after its opening quote. *)
Fixpoint string_body (s : string) : option (string * string) :=
  match s with
  | EmptyString => None
  | String c rest =>
      if Ascii.eqb c dquote then Some (EmptyString, rest)
      else if Ascii.eqb c backslash then
        match rest with
        | String e rest' =>
            match unescape e, string_body rest' with
            | Some x, Some (body, tail) => Some (String x body, tail)
            | _, _ => None
            end
        | EmptyString => None
        end
      else if (nat_of_ascii c <? 32)%nat then None
      else
        match string_body rest with
        | Some (body, tail) => Some (String c body, tail)
        | None => None
        end
  end.

Fixpoint digits (s : string) (acc : Z) : Z * string :=
  match s with
  | String c rest =>
      match digit_of c with
      | Some d => digits rest (10 * acc + d)
      | None => (acc, s)
      end
  | EmptyString => (acc, s)
  end.

(** An integer literal: no leading zero, no fraction, no exponent. *)
Definition integer (s : string) : option (Z * string) :=
  let '(negative, s) :=
    match s with
    | String "-"%char rest => (true, rest)
    | _ => (false, s)
    end in
  match s with
  | String c rest =>
      match digit_of c with
      | Some 0 =>
          match rest with
          | String d _ =>
              match digit_of d with
              | Some _ => None
              | None => Some (0, rest)
              end
          | EmptyString => Some (0, rest)
          end
      | Some _ =>
          let '(n, tail) := digits s 0 in
          Some (if negative then - n else n, tail)
      | None => None
      end
  | EmptyString => None
  end.

Definition no_fraction (s : string) : bool :=
  match s with
  | String "."%char _ | String "e"%char _ | String "E"%char _ => false
  | _ => true
  end.

Fixpoint element (fuel : nat) (s : string) : option (value * string) :=
  match fuel with
  | O => None
  | S fuel =>
      match skip s with
      | String "["%char rest =>
          match skip rest with
          | String "]"%char tail => Some (VArr [], tail)
          | _ => elements fuel rest []
          end
      | String "{"%char rest =>
          match skip rest with
          | String "}"%char tail => Some (VObj [], tail)
          | _ => members fuel rest []
          end
      | String c rest as text =>
          if Ascii.eqb c dquote then
            match string_body rest with
            | Some (body, tail) => Some (VStr body, tail)
            | None => None
            end
          else
            match after_prefix "null" text, after_prefix "true" text,
                  after_prefix "false" text with
            | Some tail, _, _ => Some (VNull, tail)
            | _, Some tail, _ => Some (VBool true, tail)
            | _, _, Some tail => Some (VBool false, tail)
            | _, _, _ =>
                match integer text with
                | Some (n, tail) =>
                    if no_fraction tail then Some (VNum (round_double n), tail)
                    else None
                | None => None
                end
            end
      | EmptyString => None
      end
  end
with elements (fuel : nat) (s : string) (acc : list value)
     : option (value * string) :=
  match fuel with
  | O => None
  | S fuel =>
      match element fuel s with
      | Some (v, rest) =>
          match skip rest with
          | String ","%char tail => elements fuel tail (acc ++ [v])
          | String "]"%char tail => Some (VArr (acc ++ [v]), tail)
          | _ => None
          end
      | None => None
      end
  end
with members (fuel : nat) (s : string) (acc : obj)
     : option (value * string) :=
  match fuel with
  | O => None
  | S fuel =>
      match skip s with
      | String c rest =>
          if Ascii.eqb c dquote then
            match string_body rest with
            | Some (key, after_key) =>
                match skip after_key with
                | String ":"%char after_colon =>
                    match element fuel after_colon with
                    | Some (v, after_value) =>
                        match skip after_value with
                        | String ","%char tail =>
                            members fuel tail (set acc key v)
                        | String "}"%char tail =>
                            Some (VObj (set acc key v), tail)
                        | _ => None
                        end
                    | None => None
                    end
                | _ => None
                end
            | None => None
            end
          else None
      | EmptyString => None
      end
  end.

Definition parse (text : string) : result value :=
  match element (2 * String.length text + 4) text with
  | Some (v, rest) =>
      if (skip rest =? "")%string then Ok v else Throw SyntaxError
  | None => Throw SyntaxError
  end.

Fixpoint escape (s : string) : string :=
  match s with
  | EmptyString => EmptyString
  | String c rest =>
      let n := nat_of_ascii c in
      if Ascii.eqb c dquote then String backslash (String dquote (escape rest))
      else if Ascii.eqb c backslash
      then String backslash (String backslash (escape rest))
      else if (n =? 8)%nat then String backslash (String "b" (escape rest))
      else if (n =? 12)%nat then String backslash (String "f" (escape rest))
      else if (n =? 10)%nat then String backslash (String "n" (escape rest))
      else if (n =? 13)%nat then String backslash (String "r" (escape rest))
      else if (n =? 9)%nat then String backslash (String "t" (escape rest))
      else if (n <? 32)%nat then
        String backslash
          (String "u" (String "0" (String "0"
             (String (hex_lower (n / 16))
                (String (hex_lower (n mod 16)) (escape rest))))))
      else String c (escape rest)
  end.

(** The text of a value; [undefined] has none. *)
Fixpoint text_of (v : value) : option string :=
  match v with
  | VUndefined => None
  | VNull | VNum NaN | VNum (Inf _) => Some "null"
  | VBool true => Some "true"
  | VBool false => Some "false"
  | VNum n => Some (number_text n)
  | VStr s => Some (quoted (escape s))
  | VArr l =>
      Some ("[" ++ join ","
                     (map (fun x => match text_of x with
                                    | Some t => t
                                    | None => "null"
                                    end) l) ++ "]")
  | VObj o =>
      Some ("{" ++ join ","
                     (flat_map
                        (fun kv => match text_of (snd kv) with
                                   | Some t =>
                                       [quoted (escape (fst kv)) ++ ":" ++ t]
                                   | None => []
                                   end) o) ++ "}")
  end.

Definition stringify (v : value) : value :=
  match text_of v with
  | Some t => VStr t
  | None => VUndefined
  end.

End JSON.

(** ** The params a resource has in the store before any navigation *)

(** The object given in the comment above [hasCustomParams]:
    [{ filter: {}, order: null, page: 1, perPage: null, sort: null }]. *)
Definition initialParams : obj :=
  [("filter", VObj []); ("order", VNull); ("page", VInt 1);
   ("perPage", VNull); ("sort", VNull)].

(** Objects as JavaScript has them: no key twice, at any depth. *)
Fixpoint distinct (l : list string) : bool :=
  match l with
  | [] => true
  | k :: rest => negb (existsb (String.eqb k) rest) && distinct rest
  end.

Fixpoint well_formed (v : value) : bool :=
  match v with
  | VArr l => forallb well_formed l
  | VObj o =>
      distinct (map fst o) && forallb (fun kv => well_formed (snd kv)) o
  | _ => true
  end.

(** ** RichTextField: removeTags and what the field shows *)

(** The text after the first [>] of [s], when there is one. *)
Fixpoint after_gt (s : string) : option string :=
  match s with
  | EmptyString => None
  | String c rest => if Ascii.eqb c ">" then Some rest else after_gt rest
  end.

(** A match of [<[^>]+>] at the very start of [s]: the text that follows
    it.  The class [[^>]] takes any character but [>], so the match runs
    from the [<] to the first [>] after it, with at least one character
    in between. *)
Definition match_tag (s : string) : option string :=
  match s with
  | String "<"%char (String c rest) =>
      if Ascii.eqb c ">" then None else after_gt rest
  | _ => None
  end.

(** [s.replace(/<[^>]+>/gm, '')]: matches are looked for from left to
    right, each search starting where the match before it ended. *)
Fixpoint strip_tags (fuel : nat) (s : string) : string :=
  match fuel with
  | O => s
  | S fuel =>
      match s with
      | EmptyString => EmptyString
      | String c rest =>
          match match_tag s with
          | Some tail => strip_tags fuel tail
          | None => String c (strip_tags fuel rest)
          end
      end
  end.

Definition replace_tags (s : string) : string :=
  strip_tags (String.length s) s.

(** [removeTags].  A truthy input that is not a string has no [replace]
    method, and calling it throws. *)
Definition removeTags (input : value) : result value :=
  if truthy input then
    match input with
    | VStr s => Ok (VStr (replace_tags s))
    | _ => Throw TypeError
    end
  else Ok (VStr "").

(** No match of [<[^>]+>] starts anywhere in [s]. *)
Fixpoint tag_free (s : string) : bool :=
  match s with
  | EmptyString => true
  | String c rest =>
      match match_tag s with
      | Some _ => false
      | None => tag_free rest
      end
  end.

(** The character [c] occurs in [s]. *)
Fixpoint occurs (c : ascii) (s : string) : bool :=
  match s with
  | EmptyString => false
  | String x rest => Ascii.eqb x c || occurs c rest
  end.

(** What the field puts inside its Typography element: a text node, or a
    span whose inner HTML is the value. *)
Inductive content : Type :=
| Text (node : value)
| InnerHtml (html : value).

Definition RichTextField_children (fieldValue emptyText stripTags : value)
  : result content :=
  if negb (not_nullish fieldValue) && truthy emptyText
  then Ok (Text emptyText)
  else if truthy stripTags then
    text <- removeTags fieldValue ;; Ok (Text text)
  else Ok (InnerHtml fieldValue).

(** ** SelectInput: sanitizeRestProps *)

(** The props named in the parameter pattern of [sanitizeRestProps]. *)
Definition sanitizedProps : list string :=
  ["addLabel"; "allowEmpty"; "emptyValue"; "basePath"; "choices";
   "className"; "component"; "crudGetMatching"; "crudGetOne";
   "defaultValue"; "filter"; "filterToQuery"; "formClassName";
   "initializeForm"; "input"; "isRequired"; "label"; "locale"; "meta";
   "onChange"; "options"; "optionValue"; "optionText"; "disableValue";
   "perPage"; "record"; "reference"; "resource"; "setFilter";
   "setPagination"; "setSort"; "sort"; "source"; "textAlign"; "translate";
   "translateChoice"; "validation"].

(** [({ addLabel, ..., validation, ...rest }) => rest]. *)
Definition sanitizeRestProps (props : obj) : obj :=
  List.filter
    (fun kv => negb (existsb (String.eqb (fst kv)) sanitizedProps)) props.

(** ** A concrete instance of the hook *)

(** The hook for the resource posts with every option left to its
    default, on the reference libraries. *)
Definition posts_options : ListParamsOptions :=
  mkOptions "posts" VUndefined None VUndefined None.

Definition posts_query_of : world -> result obj :=
  query_of QueryString.parse JSON.parse posts_options.

Definition posts_elapse : Z -> world -> result world :=
  elapse QueryString.parse JSON.parse QueryString.stringify JSON.stringify
    posts_options.

Definition posts_setFilters : Z -> value -> world -> result world :=
  setFilters QueryString.parse JSON.parse QueryString.stringify
    JSON.stringify posts_options.

Definition posts_setFiltersAll : list (Z * value) -> world -> result world :=
  setFiltersAll QueryString.parse JSON.parse QueryString.stringify
    JSON.stringify posts_options.

Definition posts_showFilter : Z -> string -> value -> world -> result world :=
  showFilter QueryString.parse JSON.parse QueryString.stringify
    JSON.stringify posts_options.

Definition posts_hideFilter : Z -> string -> world -> result world :=
  hideFilter QueryString.parse JSON.parse QueryString.stringify
    JSON.stringify posts_options.

(** A first visit: empty location, nothing stored, nothing displayed. *)
Definition fresh_world : world := mkWorld "" VUndefined [] None [].

(** A later visit, with the filter [{status: 'open'}] in the store. *)
Definition open_world : world :=
  mkWorld "" (VObj [("filter", VObj [("status", VStr "open")])]) [] None [].

(** ** The spec's wording, for comparison with the code *)

(** The property read from a plain object; anything else has none of the
    properties of a list params object. *)
Definition member (v : value) (k : string) : value :=
  match v with
  | VObj o => get o k
  | _ => VUndefined
  end.

Definition is_defined (v : value) : bool :=
  match v with VUndefined => false | _ => true end.

(** The predicate as the spec words it: params is defined, its filter is
    truthy, and the filter has a key, or order is set, or page is not 1, or
    perPage is set, or sort is set. *)
Definition custom_by_spec (params : value) : bool :=
  is_defined params
  && truthy (member params "filter")
  && ((0 <? Z.of_nat (List.length (keys (spread (member params "filter")))))
      || not_nullish (member params "order")
      || strict_neq_int (member params "page") 1
      || not_nullish (member params "perPage")
      || not_nullish (member params "sort")).

(** Whether a computation returned a truthy value. *)
Definition holds (m : result value) : bool :=
  match m with
  | Ok v => truthy v
  | Throw _ => false
  end.

(** A number that is at least 1. *)
Definition at_least_one (v : value) : bool :=
  match v with
  | VNum (Int z) => 1 <=? z
  | VNum (Frac q) => Qle_bool 1 q
  | VNum (Inf negative) => negb negative
  | _ => false
  end.

Definition is_string (v : value) : bool :=
  match v with VStr _ => true | _ => false end.




(** An object, or a falsy value standing for no object at all. *)
Definition object_or_absent (v : value) : bool :=
  is_object v || negb (truthy v).

(** The dispatches that change the params of the store. *)
Fixpoint commits (l : list effect) : nat :=
  match l with
  | [] => O
  | ChangeListParams _ _ :: rest => S (commits rest)
  | Push _ :: rest => commits rest
  end.

(** Calls in time order, each made before the wait of the one before it
    has passed. *)
Fixpoint burst (wait : Z) (calls : list (Z * value)) : bool :=
  match calls with
  | (t1, _) :: ((t2, _) :: _) as rest =>
      (t1 <=? t2) && (t2 <? t1 + wait) && burst wait rest
  | _ => true
  end.

(** No call of the debounced function is waiting, or the one that waits
    is not due at [now]. *)
Definition quiet (wait now : Z) (w : world) : bool :=
  match pending w with
  | None => true
  | Some (_, calledAt) => now <? calledAt + wait
  end.

(** * Properties *)

(** ** Objects *)

Lemma get_set_same (o : obj) (k : string) (v : value) :
  get (set o k v) k = v.
Proof.
  induction o as [|[k' v'] rest IH]; simpl.
  - now rewrite String.eqb_refl.
  - destruct (String.eqb_spec k' k) as [->|Hne]; simpl.
    + now rewrite String.eqb_refl.
    + destruct (String.eqb_spec k' k); [contradiction | exact IH].
Qed.

Lemma get_set_other (o : obj) (k k' : string) (v : value) :
  k <> k' -> get (set o k v) k' = get o k'.
Proof.
  intros Hne. induction o as [|[k0 v0] rest IH]; simpl.
  - destruct (String.eqb_spec k k'); [contradiction | reflexivity].
  - destruct (String.eqb_spec k0 k) as [->|H0]; simpl.
    + destruct (String.eqb_spec k k'); [contradiction | reflexivity].
    + now rewrite IH.
Qed.

Lemma has_key_set_same (o : obj) (k : string) (v : value) :
  has_key (set o k v) k = true.
Proof.
  induction o as [|[k' v'] rest IH]; simpl.
  - now rewrite String.eqb_refl.
  - destruct (String.eqb_spec k' k) as [->|Hne]; simpl.
    + now rewrite String.eqb_refl.
    + now rewrite IH, orb_true_r.
Qed.

Lemma has_key_set_other (o : obj) (k k' : string) (v : value) :
  k <> k' -> has_key (set o k v) k' = has_key o k'.
Proof.
  intros Hne. induction o as [|[k0 v0] rest IH]; simpl.
  - destruct (String.eqb_spec k k'); [contradiction | reflexivity].
  - destruct (String.eqb_spec k0 k) as [->|H0]; simpl.
    + destruct (String.eqb_spec k k'); [contradiction | reflexivity].
    + now rewrite IH.
Qed.

(** Writing back the value a key already has changes nothing. *)
Lemma set_unchanged (o : obj) (k : string) (v : value) :
  has_key o k = true -> get o k = v -> set o k v = o.
Proof.
  induction o as [|[k' v'] rest IH]; simpl; [discriminate|].
  destruct (String.eqb_spec k' k) as [->|Hne]; simpl.
  - now intros _ ->.
  - intros Hk Hv. now rewrite IH.
Qed.

Lemma get_absent (o : obj) (k : string) :
  has_key o k = false -> get o k = VUndefined.
Proof.
  induction o as [|[k' v'] rest IH]; simpl; [reflexivity|].
  destruct (k' =? k)%string; simpl; [discriminate | exact IH].
Qed.

Lemma truthy_has_key (o : obj) (k : string) :
  truthy (get o k) = true -> has_key o k = true.
Proof.
  destruct (has_key o k) eqn:Hk; [reflexivity|].
  now rewrite (get_absent _ _ Hk).
Qed.

Lemma has_key_del (o : obj) (k : string) : has_key (del o k) k = false.
Proof.
  induction o as [|[k' v'] rest IH]; simpl; [reflexivity|].
  destruct (k' =? k)%string eqn:E; simpl; [exact IH | now rewrite E].
Qed.

Lemma get_del_other (o : obj) (k k' : string) :
  k <> k' -> get (del o k) k' = get o k'.
Proof.
  intros Hne. induction o as [|[k0 v0] rest IH]; simpl; [reflexivity|].
  destruct (String.eqb_spec k0 k) as [->|H0]; simpl.
  - destruct (String.eqb_spec k k'); [contradiction | exact IH].
  - now rewrite IH.
Qed.

Lemma has_key_filter (p : string * value -> bool) (o : obj) (k : string) :
  has_key o k = false -> has_key (List.filter p o) k = false.
Proof.
  induction o as [|[k' v'] rest IH]; simpl; [reflexivity|].
  intros H. apply orb_false_iff in H as [Hk Hrest].
  destruct (p (k', v')); simpl; [rewrite Hk|]; auto.
Qed.

(** ** Truthiness *)

Lemma js_or_truthy (a b : value) :
  truthy b = true -> truthy (js_or a b) = true.
Proof. unfold js_or. now destruct (truthy a) eqn:E. Qed.

Lemma truthy_not_nullish (v : value) :
  truthy v = true -> not_nullish v = true.
Proof. now destruct v. Qed.

(** ** hasCustomParams *)

Lemma hasCustomParams_returns (params : value) :
  exists r, hasCustomParams params = Ok r /\ truthy r = custom_by_spec params.
Proof.
  unfold hasCustomParams. destruct (truthy params) eqn:Hp.
  - destruct params as [| |b|n|s|l|o]; simpl in Hp; try discriminate;
      try (exists VUndefined; split; reflexivity).
    simpl. unfold custom_by_spec. simpl.
    destruct (truthy (get o "filter")) eqn:Hf.
    + destruct (get o "filter") eqn:Hg; simpl in Hf; try discriminate;
        eexists; (split; [reflexivity|]); reflexivity.
    + eexists; split; [reflexivity | exact Hf].
  - exists params. split; [reflexivity|]. rewrite Hp.
    destruct params; simpl in Hp; try discriminate; reflexivity.
Qed.

(** C5. [hasCustomParams] never throws and returns a truthy value exactly
    when params is defined, its filter is truthy, and the filter has at
    least one key, or order is non-null, or page is not 1, or perPage is
    non-null, or sort is non-null.  It returns [undefined] on [undefined]
    and [null] on [{filter: null}], and params whose filter is falsy (null
    or absent) are never custom, whatever sort, order, page and perPage
    are. *)
Theorem hasCustomParams_spec :
  (forall params : value,
      exists r, hasCustomParams params = Ok r
                /\ truthy r = custom_by_spec params)
  /\ hasCustomParams VUndefined = Ok VUndefined
  /\ hasCustomParams (VObj [("filter", VNull)]) = Ok VNull
  /\ (forall o : obj,
         holds (hasCustomParams (VObj o)) && negb (truthy (get o "filter"))
         = false).
Proof.
  split; [exact hasCustomParams_returns|].
  split; [reflexivity|]. split; [reflexivity|].
  intros o. destruct (hasCustomParams_returns (VObj o)) as (r & -> & Hr).
  simpl. rewrite Hr. unfold custom_by_spec. simpl.
  destruct (truthy (get o "filter")); simpl; [apply andb_false_r | reflexivity].
Qed.

(** ** getNumberOrDefault *)

Lemma getNumberOrDefault_truthy (x d : value) :
  truthy d = true -> truthy (getNumberOrDefault x d) = true.
Proof. intros Hd. unfold getNumberOrDefault. now apply js_or_truthy. Qed.

Lemma getNumberOrDefault_not_string (x d : value) :
  is_string d = false -> is_string (getNumberOrDefault x d) = false.
Proof.
  intros Hd. unfold getNumberOrDefault, js_or.
  set (read := match x with VStr s => VNum (parseInt s) | _ => x end).
  assert (Hread : is_string read = false) by now destruct x.
  now destruct (truthy read).
Qed.


(** A value that [getNumberOrDefault] produced passes through it unchanged. *)
Lemma getNumberOrDefault_fixed (v d : value) :
  truthy v = true -> is_string v = false -> getNumberOrDefault v d = v.
Proof.
  intros Hv Hs. unfold getNumberOrDefault, js_or.
  destruct v; try discriminate; now rewrite Hv.
Qed.




(** ** fillDefaults, field by field *)

Ltac obj_simpl :=
  repeat first
    [ rewrite get_set_same
    | rewrite get_set_other by discriminate
    | rewrite has_key_set_same
    | rewrite has_key_set_other by discriminate ].

Ltac fill_cases q :=
  unfold fillDefaults; cbv zeta;
  destruct (truthy (get q "sort")) eqn:?; cbn [negb]; obj_simpl;
  destruct (truthy (get q "perPage")) eqn:?; cbn [negb]; obj_simpl;
  destruct (truthy (get q "page")) eqn:?; cbn [negb]; obj_simpl.

Lemma fillDefaults_page (q : obj) (sort : Sort) (perPage : value) :
  get (fillDefaults q sort perPage) "page"
  = getNumberOrDefault (js_or (get q "page") (VInt 1)) (VInt 1).
Proof.
  unfold js_or. fill_cases q; reflexivity.
Qed.

Lemma fillDefaults_perPage (q : obj) (sort : Sort) (perPage : value) :
  get (fillDefaults q sort perPage) "perPage"
  = getNumberOrDefault (js_or (get q "perPage") perPage) (VInt 10).
Proof.
  unfold js_or. fill_cases q; reflexivity.
Qed.

Lemma fillDefaults_filter (q : obj) (sort : Sort) (perPage : value) :
  get (fillDefaults q sort perPage) "filter" = get q "filter".
Proof.
  fill_cases q; reflexivity.
Qed.

Lemma fillDefaults_sort (q : obj) (sort : Sort) (perPage : value) :
  get (fillDefaults q sort perPage) "sort"
  = (if truthy (get q "sort") then get q "sort" else VStr (field sort))
  /\ get (fillDefaults q sort perPage) "order"
     = (if truthy (get q "sort") then get q "order" else VStr (order sort)).
Proof.
  fill_cases q; split; reflexivity.
Qed.

(** A query that already went through [fillDefaults] is left as it is. *)
Lemma fillDefaults_fixed (out : obj) (sort : Sort) (perPage : value) :
  truthy (get out "sort") = true
  \/ (has_key out "sort" = true /\ get out "sort" = VStr (field sort)
      /\ has_key out "order" = true /\ get out "order" = VStr (order sort)) ->
  truthy (get out "perPage") = true -> is_string (get out "perPage") = false ->
  truthy (get out "page") = true -> is_string (get out "page") = false ->
  fillDefaults out sort perPage = out.
Proof.
  intros Hsort Hpp Hpps Hp Hps. unfold fillDefaults. cbv zeta.
  assert (Hstep : (if negb (truthy (get out "sort"))
                   then set (set out "sort" (VStr (field sort)))
                          "order" (VStr (order sort))
                   else out) = out).
  { destruct (truthy (get out "sort")) eqn:Hs; [reflexivity|]. cbn [negb].
    destruct Hsort as [Habs | (Hk & Hv & Hk' & Hv')]; [discriminate|].
    rewrite (set_unchanged out "sort") by assumption.
    now apply set_unchanged. }
  rewrite Hstep, Hpp. cbn [negb]. rewrite Hp. cbn [negb].
  rewrite (getNumberOrDefault_fixed _ _ Hp Hps).
  rewrite (set_unchanged out "page") by (auto using truthy_has_key).
  rewrite (getNumberOrDefault_fixed _ _ Hpp Hpps).
  apply set_unchanged; auto using truthy_has_key.
Qed.

Lemma fillDefaults_sort_keys (q : obj) (sort : Sort) (perPage : value) :
  truthy (get q "sort") = false ->
  has_key (fillDefaults q sort perPage) "sort" = true
  /\ has_key (fillDefaults q sort perPage) "order" = true.
Proof.
  intros Hs. unfold fillDefaults. cbv zeta. rewrite Hs. cbn [negb]. obj_simpl.
  destruct (truthy (get q "perPage")); cbn [negb]; obj_simpl;
    destruct (truthy (get q "page")); cbn [negb]; obj_simpl;
    split; reflexivity.
Qed.

Lemma fillDefaults_page_ok (q : obj) (sort : Sort) (perPage : value) :
  truthy (get (fillDefaults q sort perPage) "page") = true
  /\ is_string (get (fillDefaults q sort perPage) "page") = false.
Proof.
  rewrite fillDefaults_page. split.
  - now apply getNumberOrDefault_truthy.
  - now apply getNumberOrDefault_not_string.
Qed.

Lemma fillDefaults_perPage_ok (q : obj) (sort : Sort) (perPage : value) :
  truthy (get (fillDefaults q sort perPage) "perPage") = true
  /\ is_string (get (fillDefaults q sort perPage) "perPage") = false.
Proof.
  rewrite fillDefaults_perPage. split.
  - now apply getNumberOrDefault_truthy.
  - now apply getNumberOrDefault_not_string.
Qed.

Lemma fillDefaults_idempotent (q : obj) (sort : Sort) (perPage : value) :
  fillDefaults (fillDefaults q sort perPage) sort perPage
  = fillDefaults q sort perPage.
Proof.
  destruct (fillDefaults_page_ok q sort perPage) as [Hp Hps].
  destruct (fillDefaults_perPage_ok q sort perPage) as [Hpp Hpps].
  apply fillDefaults_fixed; try assumption.
  destruct (fillDefaults_sort q sort perPage) as [Hs Ho].
  destruct (truthy (get q "sort")) eqn:Hq.
  - left. now rewrite Hs.
  - right. destruct (fillDefaults_sort_keys q sort perPage Hq) as [Hk Hk'].
    auto.
Qed.

(** ** The extract and merge path *)

Section Merge.

Variable parse : string -> obj.
Variable JSON_parse : string -> result value.

Lemma parseQueryFromLocation_returns (search : string) :
  exists q, parseQueryFromLocation parse JSON_parse search = Ok q.
Proof.
  unfold parseQueryFromLocation. cbv zeta.
  destruct (truthy _ && _); [|eexists; reflexivity].
  destruct (JSON_parse _); simpl; eexists; reflexivity.
Qed.

Lemma workingQuery_returns (q : obj) (params fdv : value) :
  workingQuery q params fdv
  = Ok (if 0 <? Z.of_nat (List.length (keys q)) then q
        else if holds (hasCustomParams params) then spread params
             else [("filter", js_or fdv (VObj []))]).
Proof.
  unfold workingQuery.
  destruct (0 <? Z.of_nat (List.length (keys q))); [reflexivity|].
  destruct (hasCustomParams_returns params) as (r & -> & _).
  simpl. now destruct (truthy r).
Qed.

Lemma getQuery_returns (search : string) (params fdv : value)
      (sort : Sort) (perPage : value) :
  exists q,
    parseQueryFromLocation parse JSON_parse search = Ok q
    /\ getQuery parse JSON_parse search params fdv sort perPage
       = Ok (fillDefaults
               (if 0 <? Z.of_nat (List.length (keys q)) then q
                else if holds (hasCustomParams params) then spread params
                     else [("filter", js_or fdv (VObj []))])
               sort perPage).
Proof.
  destruct (parseQueryFromLocation_returns search) as [q Hq].
  exists q. split; [exact Hq|].
  unfold getQuery. rewrite Hq. simpl. now rewrite workingQuery_returns.
Qed.

End Merge.

Lemma no_keys (q : obj) :
  (0 <? Z.of_nat (List.length (keys q))) = false <-> keys q = [].
Proof.
  destruct q as [|kv rest]; simpl; split; intros H;
    try reflexivity; discriminate.
Qed.

Lemma holds_custom (params : value) :
  holds (hasCustomParams params) = custom_by_spec params.
Proof.
  destruct (hasCustomParams_returns params) as (r & -> & Hr). exact Hr.
Qed.

(** Custom params are a plain object with a truthy filter. *)
Lemma custom_filter (params : value) :
  custom_by_spec params = true ->
  get (spread params) "filter" = member params "filter"
  /\ truthy (member params "filter") = true.
Proof.
  unfold custom_by_spec. intros H.
  apply andb_true_iff in H as [H _]. apply andb_true_iff in H as [_ H].
  destruct params; simpl in *; try discriminate. now split.
Qed.

(** C1. Strict precedence, wholesale.  The merged query is [fillDefaults]
    of a working query chosen as follows: what [parseQueryFromLocation]
    extracted from the URL when that has at least one key, and then
    neither the stored params nor [filterDefaultValues] are read;
    otherwise a copy of the stored params when [hasCustomParams] holds of
    them; otherwise [{filter: filterDefaultValues || {}}].  [fillDefaults]
    takes sort and order, perPage and page from the caller's defaults
    where the working query has none.  On the location [?page=3] with
    stored params [{page: 5, filter: {a: 1}}], default sort id/ASC and
    page size 10 the result is [{page: 3, perPage: 10, sort: 'id',
    order: 'ASC'}], without a filter key. *)
Theorem getQuery_precedence :
  (forall (parse : string -> obj) (JSON_parse : string -> result value)
          (search : string) (params fdv : value) (sort : Sort)
          (perPage : value),
      exists q,
        parseQueryFromLocation parse JSON_parse search = Ok q
        /\ getQuery parse JSON_parse search params fdv sort perPage
           = Ok (fillDefaults
                   (if 0 <? Z.of_nat (List.length (keys q)) then q
                    else if holds (hasCustomParams params)
                         then spread params
                         else [("filter", js_or fdv (VObj []))])
                   sort perPage))
  /\ (forall (q : obj) (sort : Sort) (perPage : value),
         get (fillDefaults q sort perPage) "sort"
         = (if truthy (get q "sort") then get q "sort"
            else VStr (field sort))
         /\ get (fillDefaults q sort perPage) "order"
            = (if truthy (get q "sort") then get q "order"
               else VStr (order sort))
         /\ get (fillDefaults q sort perPage) "perPage"
            = getNumberOrDefault (js_or (get q "perPage") perPage) (VInt 10)
         /\ get (fillDefaults q sort perPage) "page"
            = getNumberOrDefault (js_or (get q "page") (VInt 1)) (VInt 1)
         /\ get (fillDefaults q sort perPage) "filter" = get q "filter")
  /\ (let out :=
        [("page", VInt 3); ("sort", VStr "id"); ("order", VStr "ASC");
         ("perPage", VInt 10)] in
      getQuery QueryString.parse JSON.parse "?page=3"
        (VObj [("page", VInt 5); ("filter", VObj [("a", VInt 1)])])
        VUndefined (mkSort "id" "ASC") (VInt 10)
      = Ok out
      /\ isEqual (VObj out)
           (VObj [("page", VInt 3); ("perPage", VInt 10);
                  ("sort", VStr "id"); ("order", VStr "ASC")]) = true
      /\ has_key out "filter" = false).
Proof.
  split; [intros; apply getQuery_returns|].
  split.
  - intros q sort perPage.
    destruct (fillDefaults_sort q sort perPage) as [Hs Ho].
    repeat split; auto using fillDefaults_perPage, fillDefaults_page,
      fillDefaults_filter.
  - cbv zeta. repeat split; vm_compute; reflexivity.
Qed.


(** The same page comes out when a no-break space precedes it in the
    query string, and a page size that is a fraction below 1 is kept as
    it is. *)
Example getQuery_odd_pages :
  (exists out,
      getQuery QueryString.parse JSON.parse "?page=%C2%A0-5" VUndefined
        VUndefined defaultSort (VInt 10) = Ok out
      /\ get out "page" = VInt (-5))
  /\ (exists out,
         getQuery QueryString.parse JSON.parse "" VUndefined VUndefined
           defaultSort (VNum (Frac (Qmake 1 2))) = Ok out
         /\ get out "perPage" = VNum (Frac (Qmake 1 2))
         /\ at_least_one (get out "perPage") = false).
Proof.
  split; eexists; repeat split; vm_compute; reflexivity.
Qed.




(** C3, counterexample.  On the location [?page=3] the merged output has
    no filter: reading it gives [undefined], which is not an object. *)
Lemma filter_can_be_undefined :
  exists out,
    getQuery QueryString.parse JSON.parse "?page=3"
      (VObj [("page", VInt 5); ("filter", VObj [("a", VInt 1)])])
      VUndefined defaultSort (VInt 10) = Ok out
    /\ get out "filter" = VUndefined
    /\ is_object (get out "filter") = false.
Proof. eexists. repeat split; vm_compute; reflexivity. Qed.

(** C3, amended.  When the location yields no recognised key, the filter of
    the merged output is truthy, hence never undefined, and it is an
    object whenever the stored filter and [filterDefaultValues] are each an
    object or absent.  When the location yields a recognised key, the
    filter is the one extracted from the URL, undefined when the URL has
    none.  The [filterValues] the hook derives from the output
    ([query.filter || {}]) are truthy in every case. *)
Theorem getQuery_filter
        (parse : string -> obj) (JSON_parse : string -> result value)
        (search : string) (params fdv : value) (sort : Sort)
        (perPage : value) :
  exists q out,
    parseQueryFromLocation parse JSON_parse search = Ok q
    /\ getQuery parse JSON_parse search params fdv sort perPage = Ok out
    /\ truthy (filterValues_of out) = true
    /\ (keys q = [] ->
        truthy (get out "filter") = true
        /\ (object_or_absent fdv = true ->
            object_or_absent (member params "filter") = true ->
            is_object (get out "filter") = true))
    /\ (keys q <> [] -> get out "filter" = get q "filter").
Proof.
  destruct (getQuery_returns parse JSON_parse search params fdv sort perPage)
    as (q & Hq & Hout).
  eexists q, _. split; [exact Hq|]. split; [exact Hout|].
  rewrite fillDefaults_filter. split; [|split].
  - unfold filterValues_of. rewrite fillDefaults_filter.
    now apply js_or_truthy.
  - intros Hk. apply no_keys in Hk. rewrite Hk. rewrite holds_custom.
    destruct (custom_by_spec params) eqn:Hc.
    + destruct (custom_filter params Hc) as [-> Ht]. split; [exact Ht|].
      intros _ Ho. unfold object_or_absent in Ho. rewrite Ht in Ho.
      now rewrite orb_false_r in Ho.
    + simpl. split; [now apply js_or_truthy|].
      intros Ho _. unfold object_or_absent in Ho. unfold js_or.
      destruct (truthy fdv); [now rewrite orb_false_r in Ho | reflexivity].
  - intros Hk. destruct (0 <? Z.of_nat (List.length (keys q))) eqn:E;
      [reflexivity|]. apply no_keys in E. contradiction.
Qed.

Lemma getQuery_filter_witness :
  exists out,
    getQuery QueryString.parse JSON.parse ""
      (VObj [("filter", VObj []); ("page", VInt 1)])
      (VObj [("status", VStr "open")]) (mkSort "name" "DESC") (VInt 25)
    = Ok out
    /\ is_object (get out "filter") = true.
Proof.
  destruct (getQuery_filter QueryString.parse JSON.parse ""
              (VObj [("filter", VObj []); ("page", VInt 1)])
              (VObj [("status", VStr "open")]) (mkSort "name" "DESC")
              (VInt 25))
    as (q & out & Hq & Hout & _ & Hnone & _).
  exists out. split; [exact Hout|].
  vm_compute in Hq. injection Hq as <-.
  apply Hnone; reflexivity.
Defined.

(** C4, counterexample.  The empty string is a filter value that is not
    JSON, and [parseQueryFromLocation] keeps the filter key on the
    location [?filter=]. *)
Lemma parseQueryFromLocation_keeps_empty_filter :
  JSON.parse "" = Throw SyntaxError
  /\ parseQueryFromLocation QueryString.parse JSON.parse "?filter="
     = Ok [("filter", VStr "")]
  /\ has_key [("filter", VStr "")] "filter" = true.
Proof. repeat split; vm_compute; reflexivity. Qed.

(** C4, amended.  For every non-empty string value of the filter key that
    [JSON.parse] rejects, [parseQueryFromLocation] returns the recognised
    keys without filter and with every other key as it was; an empty
    filter string is kept as it is.  Neither [parseQueryFromLocation] nor
    [getQuery] throws, whatever the query string is. *)
Theorem parseQueryFromLocation_bad_filter
        (parse : string -> obj) (JSON_parse : string -> result value)
        (search : string) :
  let picked :=
    pickBy (parse search)
      (fun v k => negb (indexOf validQueryParams k =? -1)) in
  (forall (s : string) (e : exn),
      get picked "filter" = VStr s -> s <> "" -> JSON_parse s = Throw e ->
      parseQueryFromLocation parse JSON_parse search
      = Ok (del picked "filter"))
  /\ has_key (del picked "filter") "filter" = false
  /\ (forall k : string,
         k <> "filter" -> get (del picked "filter") k = get picked k)
  /\ (get picked "filter" = VStr "" ->
      parseQueryFromLocation parse JSON_parse search = Ok picked)
  /\ returns (parseQueryFromLocation parse JSON_parse search)
  /\ (forall (params fdv : value) (sort : Sort) (perPage : value),
         returns (getQuery parse JSON_parse search params fdv sort perPage)).
Proof.
  intros picked. split; [|split; [|split; [|split; [|split]]]].
  - intros s e Hf Hs Hj. unfold parseQueryFromLocation. fold picked.
    cbv zeta. rewrite Hf. simpl.
    destruct (String.eqb_spec s ""); [contradiction|]. simpl.
    now rewrite Hj.
  - apply has_key_del.
  - intros k Hk. apply get_del_other. congruence.
  - intros Hf. unfold parseQueryFromLocation. fold picked. cbv zeta.
    now rewrite Hf.
  - destruct (parseQueryFromLocation_returns parse JSON_parse search)
      as [q Hq]. now exists q.
  - intros params fdv sort perPage.
    destruct (getQuery_returns parse JSON_parse search params fdv sort
                perPage) as (q & _ & Hout).
    eexists. exact Hout.
Qed.

Lemma parseQueryFromLocation_bad_filter_witness :
  parseQueryFromLocation QueryString.parse JSON.parse "?filter={bad&page=2"
  = Ok [("page", VStr "2")].
Proof.
  apply (proj1 (parseQueryFromLocation_bad_filter QueryString.parse
                  JSON.parse "?filter={bad&page=2") "{bad" SyntaxError).
  - reflexivity.
  - discriminate.
  - reflexivity.
Defined.

(** C6, counterexample.  The output for [?page=3] has page 3 and no
    filter; fed back as params with an empty location it is not custom,
    and the second output has page 1 and the filter [{}]. *)
Lemma getQuery_not_idempotent :
  exists out out',
    getQuery QueryString.parse JSON.parse "?page=3"
      (VObj [("page", VInt 5); ("filter", VObj [("a", VInt 1)])])
      VUndefined defaultSort (VInt 10) = Ok out
    /\ getQuery QueryString.parse JSON.parse "" (VObj out)
         VUndefined defaultSort (VInt 10) = Ok out'
    /\ get out "page" = VInt 3
    /\ get out' "page" = VInt 1
    /\ get out "filter" = VUndefined
    /\ get out' "filter" = VObj [].
Proof. eexists. eexists. repeat split; vm_compute; reflexivity. Qed.

(** C6, amended.  Whenever the output of [getQuery] has a truthy filter
    (as it always has when the location yields no recognised key), feeding
    it back as params, with an empty location that parses to no key and
    the same defaults, yields that same output: same page, perPage, sort,
    order and filter. *)
Theorem getQuery_idempotent
        (parse : string -> obj) (JSON_parse : string -> result value)
        (search : string) (params fdv : value) (sort : Sort)
        (perPage : value) (out : obj) :
  parse "" = [] ->
  getQuery parse JSON_parse search params fdv sort perPage = Ok out ->
  truthy (get out "filter") = true ->
  getQuery parse JSON_parse "" (VObj out) fdv sort perPage = Ok out.
Proof.
  intros Hempty Hout Hf.
  destruct (getQuery_returns parse JSON_parse search params fdv sort perPage)
    as (q & _ & Hout').
  rewrite Hout in Hout'. injection Hout' as Hout'.
  set (wq := if 0 <? Z.of_nat (List.length (keys q)) then q else _) in Hout'.
  destruct (getQuery_returns parse JSON_parse "" (VObj out) fdv sort perPage)
    as (q' & Hq' & ->).
  unfold parseQueryFromLocation in Hq'. rewrite Hempty in Hq'.
  simpl in Hq'. injection Hq' as <-. simpl.
  rewrite holds_custom. unfold custom_by_spec. simpl. rewrite Hf. simpl.
  assert (Hpp : not_nullish (get out "perPage") = true).
  { apply truthy_not_nullish. rewrite Hout'.
    apply fillDefaults_perPage_ok. }
  rewrite Hpp, !orb_true_r. simpl.
  f_equal. rewrite Hout'. apply fillDefaults_idempotent.
Qed.

Lemma getQuery_idempotent_witness :
  let out :=
    [("filter", VObj [("a", VInt 1)]); ("page", VInt 2);
     ("sort", VStr "name"); ("order", VStr "DESC"); ("perPage", VInt 25)] in
  getQuery QueryString.parse JSON.parse "" (VObj out) VUndefined
    (mkSort "name" "DESC") (VInt 25) = Ok out.
Proof.
  apply (getQuery_idempotent QueryString.parse JSON.parse ""
           (VObj [("filter", VObj [("a", VInt 1)]); ("page", VInt 2)])
           VUndefined (mkSort "name" "DESC") (VInt 25)); reflexivity.
Defined.

(** ** lodash's isEqual on objects without repeated keys *)

Lemma value_nested_ind (P : value -> Prop) :
  P VUndefined -> P VNull -> (forall b, P (VBool b)) ->
  (forall n, P (VNum n)) -> (forall s, P (VStr s)) ->
  (forall l, Forall P l -> P (VArr l)) ->
  (forall o, Forall (fun kv => P (snd kv)) o -> P (VObj o)) ->
  forall v, P v.
Proof.
  intros Hu Hn Hb Hnum Hs Harr Hobj. fix IH 1.
  intros [| |b|n|s|l|o];
    [exact Hu | exact Hn | apply Hb | apply Hnum | apply Hs
    | apply Harr | apply Hobj].
  - induction l as [|x l IHl]; constructor; [apply IH | exact IHl].
  - induction o as [|[k x] o IHo]; constructor; [apply IH | exact IHo].
Qed.

Lemma isEqual_arr (l1 l2 : list value) :
  Forall (fun x => isEqual x x = true) l1 -> l1 = l2 ->
  isEqual (VArr l1) (VArr l2) = true.
Proof.
  intros Hall <-. cbn [isEqual].
  induction Hall as [|x l Hx Hl IH]; [reflexivity|]. now rewrite Hx.
Qed.

Lemma isEqual_obj (o1 o2 : obj) :
  isEqual (VObj o1) (VObj o2)
  = Nat.eqb (List.length o1) (List.length o2)
    && forallb (fun kv => has_key o2 (fst kv)
                          && isEqual (snd kv) (get o2 (fst kv))) o1.
Proof.
  cbn [isEqual]. f_equal.
  induction o1 as [|[k v] rest IH]; [reflexivity|].
  cbn [forallb fst snd]. now rewrite <- IH.
Qed.

Lemma distinct_get (o : obj) (k : string) (v : value) :
  distinct (map fst o) = true -> In (k, v) o ->
  has_key o k = true /\ get o k = v.
Proof.
  induction o as [|[k' v'] rest IH]; [contradiction|].
  cbn [map fst distinct has_key get]. intros Hd [Hin|Hin].
  - injection Hin as -> ->. rewrite String.eqb_refl. now split.
  - apply andb_true_iff in Hd as [Hfresh Hd].
    destruct (IH Hd Hin) as [Hk Hg].
    destruct (String.eqb_spec k' k) as [->|Hne]; [|now split].
    exfalso. apply negb_true_iff in Hfresh.
    assert (Hex : existsb (String.eqb k) (map fst rest) = true).
    { apply existsb_exists. exists k. split; [|apply String.eqb_refl].
      apply in_map_iff. now exists (k, v). }
    congruence.
Qed.

Lemma isEqual_refl (v : value) : well_formed v = true -> isEqual v v = true.
Proof.
  induction v as [| |b|n|s|l IH|o IH] using value_nested_ind;
    try reflexivity.
  - now destruct b.
  - intros _. destruct n as [|z|q|negative];
      [reflexivity | apply Z.eqb_refl | apply Qeq_bool_refl
      | now destruct negative].
  - intros _. apply String.eqb_refl.
  - cbn [well_formed]. intros Hwf. apply isEqual_arr; [|reflexivity].
    rewrite forallb_forall in Hwf. rewrite Forall_forall in *.
    intros x Hx. apply IH; auto.
  - cbn [well_formed]. intros Hwf. apply andb_true_iff in Hwf as [Hd Hwf].
    rewrite isEqual_obj, Nat.eqb_refl. cbn [andb].
    apply forallb_forall. intros [k x] Hin. cbn [fst snd].
    destruct (distinct_get o k x Hd Hin) as [-> ->]. cbn [andb].
    rewrite Forall_forall in IH. apply (IH (k, x) Hin).
    rewrite forallb_forall in Hwf. apply (Hwf (k, x) Hin).
Qed.

Lemma del_absent (o : obj) (k : string) :
  has_key o k = false -> del o k = o.
Proof.
  induction o as [|[k' v'] rest IH]; [reflexivity|]. cbn [has_key del].
  destruct (k' =? k)%string; [discriminate|]. cbn [orb].
  intros H. now rewrite IH.
Qed.

(** ** The debounced filter commit *)

Lemma removeEmpty_strips (o : obj) (k : string) :
  let stripped := List.filter (fun kv => negb (is_empty (snd kv))) o in
  removeEmpty (VObj o) = VObj stripped
  /\ (has_key stripped k = true -> is_empty (get stripped k) = false).
Proof.
  cbv zeta. split; [reflexivity|].
  induction o as [|[k' v'] rest IH]; simpl; [discriminate|].
  destruct (is_empty v') eqn:Hv; simpl; [exact IH|].
  destruct (k' =? k)%string; simpl; [now intros _ | exact IH].
Qed.

Lemma get_filter_set (p : string * value -> bool) (o : obj) (k : string)
      (v : value) :
  p (k, v) = true -> get (List.filter p (set o k v)) k = v.
Proof.
  intros Hp. induction o as [|[k' v'] rest IH]; simpl.
  - rewrite Hp. simpl. now rewrite String.eqb_refl.
  - destruct (String.eqb_spec k' k) as [->|Hne]; simpl.
    + rewrite Hp. simpl. now rewrite String.eqb_refl.
    + destruct (p (k', v')); simpl; [|exact IH].
      destruct (String.eqb_spec k' k); [contradiction | exact IH].
Qed.

Lemma member_removeEmpty_set (o : obj) (k : string) (v : value) :
  is_empty v = false ->
  member (removeEmpty (VObj (set o k v))) k = v.
Proof.
  intros Hv. simpl. apply get_filter_set. simpl. now rewrite Hv.
Qed.

Lemma member_removeKey (fv : value) (k : string) :
  member (removeKey fv k) k = VUndefined
  /\ member (removeEmpty (removeKey fv k)) k = VUndefined.
Proof.
  destruct fv; simpl; try (split; reflexivity).
  split; apply get_absent.
  - apply has_key_del.
  - apply has_key_filter, has_key_del.
Qed.

Section Hook.

Variable parse : string -> obj.
Variable JSON_parse : string -> result value.
Variable stringify : obj -> string.
Variable JSON_stringify : value -> value.
Variable options : ListParamsOptions.

Local Abbreviation query_at := (query_of parse JSON_parse options).
Local Abbreviation apply_now := (applyFilters stringify JSON_stringify options).
Local Abbreviation elapse_to :=
  (elapse parse JSON_parse stringify JSON_stringify options).
Local Abbreviation call_setFilters :=
  (setFilters parse JSON_parse stringify JSON_stringify options).
Local Abbreviation call_all :=
  (setFiltersAll parse JSON_parse stringify JSON_stringify options).
Local Abbreviation call_hideFilter :=
  (hideFilter parse JSON_parse stringify JSON_stringify options).
Local Abbreviation call_showFilter :=
  (showFilter parse JSON_parse stringify JSON_stringify options).
Local Abbreviation wait := (debounce_of options).

Lemma query_of_returns (w : world) : exists q, query_at w = Ok q.
Proof.
  unfold query_of.
  destruct (getQuery_returns parse JSON_parse (search w) (params w)
              (filterDefaultValues options) (sort_of options)
              (perPage_of options)) as (q & _ & H).
  eexists. exact H.
Qed.

Lemma query_of_same (w w' : world) :
  search w' = search w -> params w' = params w -> query_at w' = query_at w.
Proof. unfold query_of. now intros -> ->. Qed.

Lemma perform_all (effects : list effect) (w : world) :
  log (fold_left perform effects w) = (log w ++ effects)%list
  /\ pending (fold_left perform effects w) = pending w
  /\ displayedFilters (fold_left perform effects w) = displayedFilters w.
Proof.
  revert w. induction effects as [|e rest IH]; intros w; simpl.
  - now rewrite app_nil_r.
  - destruct (IH (perform w e)) as (Hl & Hp & Hd).
    rewrite Hl, Hp, Hd. destruct e; simpl; rewrite <- app_assoc; auto.
Qed.

(** The two dispatches of a commit, carried out on the world. *)
Lemma perform_commit (w : world) (s : string) (r : string) (newParams : obj) :
  params (fold_left perform [Push s; ChangeListParams r newParams] w)
  = VObj newParams
  /\ search (fold_left perform [Push s; ChangeListParams r newParams] w) = s.
Proof. split; reflexivity. Qed.

Lemma elapse_idle (now : Z) (w : world) :
  pending w = None -> elapse_to now w = Ok w.
Proof. unfold elapse. now intros ->. Qed.

Lemma elapse_early (now : Z) (w : world) (filters : value) (calledAt : Z) :
  pending w = Some (filters, calledAt) -> now < calledAt + wait ->
  elapse_to now w = Ok w.
Proof.
  unfold elapse. intros -> Hlt.
  destruct (Z.leb_spec (calledAt + wait) now); [lia | reflexivity].
Qed.

Lemma elapse_due (now : Z) (w : world) (filters : value) (calledAt : Z)
      (query : obj) :
  pending w = Some (filters, calledAt) -> calledAt + wait <= now ->
  query_at w = Ok query ->
  elapse_to now w
  = Ok (fold_left perform (apply_now query filters)
          (mkWorld (search w) (params w) (displayedFilters w) None (log w))).
Proof.
  unfold elapse. intros -> Hle ->.
  destruct (Z.leb_spec (calledAt + wait) now); [reflexivity | lia].
Qed.

Lemma elapse_returns (now : Z) (w : world) :
  exists w', elapse_to now w = Ok w'
             /\ displayedFilters w' = displayedFilters w.
Proof.
  unfold elapse. destruct (pending w) as [[filters calledAt]|].
  - destruct (calledAt + wait <=? now).
    + destruct (query_of_returns w) as [q ->]. simpl.
      eexists. split; [reflexivity|].
      now rewrite (proj2 (proj2 (perform_all _ _))).
    + now exists w.
  - now exists w.
Qed.

Lemma setFilters_quiet (now : Z) (filters : value) (w : world) :
  quiet wait now w = true ->
  call_setFilters now filters w
  = Ok (mkWorld (search w) (params w) (displayedFilters w)
          (Some (filters, now)) (log w)).
Proof.
  unfold quiet, setFilters. intros Hq.
  destruct (pending w) as [[f0 t0]|] eqn:Hp.
  - apply Z.ltb_lt in Hq. now rewrite (elapse_early now w f0 t0 Hp Hq).
  - now rewrite (elapse_idle now w Hp).
Qed.

Lemma setFiltersAll_burst (calls : list (Z * value)) :
  forall (w : world) (tn : Z) (c : value),
    quiet wait (fst (hd (tn, c) calls)) w = true ->
    burst wait (calls ++ [(tn, c)]) = true ->
    call_all (calls ++ [(tn, c)]) w
    = Ok (mkWorld (search w) (params w) (displayedFilters w)
            (Some (c, tn)) (log w)).
Proof.
  induction calls as [|[t f] rest IH]; intros w tn c Hq Hb.
  - simpl in *. now rewrite (setFilters_quiet tn c w Hq).
  - simpl app. simpl setFiltersAll. simpl in Hq.
    rewrite (setFilters_quiet t f w Hq). simpl bind.
    assert (Hnext : burst wait (rest ++ [(tn, c)]) = true
                    /\ (fst (hd (tn, c) rest) <? t + wait) = true).
    { simpl in Hb. destruct rest as [|[t2 f2] rest']; simpl in *.
      - apply andb_true_iff in Hb as [Hb _].
        apply andb_true_iff in Hb as [_ Hb]. auto.
      - apply andb_true_iff in Hb as [Hb Hrest].
        apply andb_true_iff in Hb as [_ Hb]. auto. }
    destruct Hnext as [Hb' Hlt].
    rewrite (IH _ tn c); [reflexivity | exact Hlt | exact Hb'].
Qed.

Lemma applyFilters_cases (query : obj) (filters : value) :
  (isEqual filters (filterValues_of query) = true ->
   apply_now query filters = [])
  /\ (isEqual filters (filterValues_of query) = false ->
      apply_now query filters
      = [ Push ("?" ++ stringify
                         (set (set query "filter" (removeEmpty filters))
                            "filter"
                            (JSON_stringify
                               (get (set query "filter" (removeEmpty filters))
                                  "filter"))));
          ChangeListParams (resource options)
            (set query "filter" (removeEmpty filters)) ])
  /\ commits (apply_now query filters)
     = (if isEqual filters (filterValues_of query) then 0 else 1)%nat.
Proof.
  unfold applyFilters.
  destruct (isEqual filters (filterValues_of query));
    repeat split; try discriminate; reflexivity.
Qed.

(** What happens when the wait of the pending call has passed. *)
Lemma elapse_fires (later : Z) (w1 : world) (filters : value) (calledAt : Z)
      (query : obj) :
  pending w1 = Some (filters, calledAt) -> calledAt + wait <= later ->
  query_at w1 = Ok query ->
  exists w2,
    elapse_to later w1 = Ok w2
    /\ log w2 = (log w1 ++ apply_now query filters)%list
    /\ pending w2 = None
    /\ (isEqual filters (filterValues_of query) = true ->
        search w2 = search w1 /\ params w2 = params w1)
    /\ (isEqual filters (filterValues_of query) = false ->
        params w2 = VObj (set query "filter" (removeEmpty filters))).
Proof.
  intros Hp Hle Hq. rewrite (elapse_due later w1 filters calledAt query Hp Hle Hq).
  eexists. split; [reflexivity|].
  destruct (perform_all (apply_now query filters)
              (mkWorld (search w1) (params w1) (displayedFilters w1) None
                 (log w1))) as (Hl & Hpend & _).
  split; [exact Hl|]. split; [exact Hpend|].
  destruct (applyFilters_cases query filters) as (Heq & Hne & _).
  split; intros H.
  - rewrite (Heq H). split; reflexivity.
  - rewrite (Hne H). reflexivity.
Qed.

(** C7. A call of [setFilters] with filters deeply equal to the current
    [filterValues], made while no earlier call is due, has no effect
    beyond the debounce timer: the debounced
    function returns at once, nothing is pushed and nothing is dispatched,
    so that the log, the search string of the location and the params of
    the store are as before, both right after the call and at any later
    time. *)
Theorem setFilters_equal_is_noop (w : world) (now later : Z)
        (filters : value) (query : obj) :
  quiet wait now w = true ->
  query_at w = Ok query ->
  isEqual filters (filterValues_of query) = true ->
  apply_now query filters = []
  /\ exists w1 w2,
       call_setFilters now filters w = Ok w1
       /\ elapse_to later w1 = Ok w2
       /\ log w1 = log w /\ search w1 = search w /\ params w1 = params w
       /\ log w2 = log w /\ search w2 = search w /\ params w2 = params w.
Proof.
  intros Hquiet Hq Heq.
  destruct (applyFilters_cases query filters) as (Hnone & _ & _).
  split; [exact (Hnone Heq)|].
  rewrite (setFilters_quiet now filters w Hquiet).
  set (w1 := mkWorld _ _ _ _ _).
  destruct (Z.le_gt_cases (now + wait) later) as [Hdue | Hearly].
  - destruct (elapse_fires later w1 filters now query eq_refl Hdue Hq)
      as (w2 & Hw2 & Hl & _ & Hsame & _).
    destruct (Hsame Heq) as [Hs Hpar].
    exists w1, w2. rewrite Hl, (Hnone Heq), app_nil_r.
    repeat split; assumption.
  - exists w1, w1.
    rewrite (elapse_early later w1 filters now eq_refl) by lia.
    repeat split; reflexivity.
Qed.

(** C8, amended.  After a burst of [setFilters] calls, each made before
    the wait of the one before it has passed and the first while no
    earlier call is due, the debounced function runs
    once: not before the wait has passed since the last call, and then on
    the last payload only.  It commits at most once: no commit when the
    last payload is deeply equal to the current [filterValues], and
    otherwise exactly one commit, a push followed by [changeListParams]
    with the filter [removeEmpty] of the last payload, in which no entry
    is empty. *)
Theorem setFilters_burst (w : world) (calls : list (Z * value)) (tn : Z)
        (c : value) (query : obj) (later : Z) :
  quiet wait (fst (hd (tn, c) calls)) w = true ->
  query_at w = Ok query ->
  burst wait (calls ++ [(tn, c)]) = true ->
  exists w1 w2,
    call_all (calls ++ [(tn, c)]) w = Ok w1
    /\ log w1 = log w
    /\ pending w1 = Some (c, tn)
    /\ elapse_to later w1 = Ok w2
    /\ (later < tn + wait -> log w2 = log w)
    /\ (tn + wait <= later ->
        log w2 = (log w ++ apply_now query c)%list /\ pending w2 = None)
    /\ commits (apply_now query c)
       = (if isEqual c (filterValues_of query) then 0 else 1)%nat
    /\ (isEqual c (filterValues_of query) = false ->
        apply_now query c
        = [ Push ("?" ++ stringify
                           (set (set query "filter" (removeEmpty c)) "filter"
                              (JSON_stringify
                                 (get (set query "filter" (removeEmpty c))
                                    "filter"))));
            ChangeListParams (resource options)
              (set query "filter" (removeEmpty c)) ])
    /\ (forall (o : obj) (k : string),
           c = VObj o ->
           exists stripped,
             removeEmpty c = VObj stripped
             /\ (has_key stripped k = true ->
                 is_empty (get stripped k) = false)).
Proof.
  intros Hquiet Hq Hb.
  rewrite (setFiltersAll_burst calls w tn c Hquiet Hb).
  set (w1 := mkWorld _ _ _ _ _).
  destruct (applyFilters_cases query c) as (_ & Hne & Hcount).
  assert (Hstrip : forall (o : obj) (k : string),
             c = VObj o ->
             exists stripped,
               removeEmpty c = VObj stripped
               /\ (has_key stripped k = true ->
                   is_empty (get stripped k) = false)).
  { intros o k ->. eexists. apply removeEmpty_strips. }
  destruct (Z.le_gt_cases (tn + wait) later) as [Hdue | Hearly].
  - destruct (elapse_fires later w1 c tn query eq_refl Hdue Hq)
      as (w2 & Hw2 & Hl & Hpend & _ & _).
    exists w1, w2.
    split; [reflexivity|]. split; [reflexivity|]. split; [reflexivity|].
    split; [exact Hw2|]. split; [intros Hlt; lia|].
    split; [intros _; split; assumption|]. auto.
  - exists w1, w1.
    rewrite (elapse_early later w1 c tn eq_refl) by lia.
    split; [reflexivity|]. split; [reflexivity|]. split; [reflexivity|].
    split; [reflexivity|]. split; [intros _; reflexivity|].
    split; [intros Hle; lia|]. auto.
Qed.

Lemma hideFilter_idle (w : world) (now : Z) (name : string) (query : obj) :
  pending w = None -> query_at w = Ok query ->
  call_hideFilter now name w
  = Ok (mkWorld (search w) (params w) [(name, VBool false)]
          (Some (removeKey (filterValues_of query) name, now)) (log w)).
Proof.
  intros Hp Hq. unfold hideFilter.
  rewrite (elapse_idle now w Hp). simpl bind. rewrite Hq. simpl bind.
  assert (Hquiet : quiet wait now
                     (setDisplayedFilters [(name, VBool false)] w) = true)
    by (unfold quiet; simpl; now rewrite Hp).
  now rewrite (setFilters_quiet now _ _ Hquiet).
Qed.

Lemma elapse_quiet (now : Z) (w : world) :
  quiet wait now w = true -> elapse_to now w = Ok w.
Proof.
  unfold quiet. intros Hq. destruct (pending w) as [[f t]|] eqn:Hp.
  - apply Z.ltb_lt in Hq. exact (elapse_early now w f t Hp Hq).
  - now apply elapse_idle.
Qed.

Lemma showFilter_quiet (w : world) (now : Z) (name : string) (dv : value)
      (query : obj) :
  quiet wait now w = true -> query_at w = Ok query -> dv <> VUndefined ->
  call_showFilter now name dv w
  = Ok (mkWorld (search w) (params w) [(name, VBool true)]
          (Some (VObj (set (spread (filterValues_of query)) name dv), now))
          (log w)).
Proof.
  intros Hquiet Hq Hdv. unfold showFilter.
  rewrite (elapse_quiet now w Hquiet). simpl bind. rewrite Hq. simpl bind.
  assert (Hquiet' : quiet wait now
                      (setDisplayedFilters [(name, VBool true)] w) = true)
    by exact Hquiet.
  destruct dv; try contradiction;
    now rewrite (setFilters_quiet now _ _ Hquiet').
Qed.

Lemma hideFilter_quiet (w : world) (now : Z) (name : string) (query : obj) :
  quiet wait now w = true -> query_at w = Ok query ->
  call_hideFilter now name w
  = Ok (mkWorld (search w) (params w) [(name, VBool false)]
          (Some (removeKey (filterValues_of query) name, now)) (log w)).
Proof.
  intros Hquiet Hq. unfold hideFilter.
  rewrite (elapse_quiet now w Hquiet). simpl bind. rewrite Hq. simpl bind.
  assert (Hquiet' : quiet wait now
                      (setDisplayedFilters [(name, VBool false)] w) = true)
    by exact Hquiet.
  now rewrite (setFilters_quiet now _ _ Hquiet').
Qed.

(** What becomes of a call handed to the debounced [setFilters] when no
    other call follows it. *)
Lemma pending_call (w1 : world) (filters : value) (now : Z) (query : obj) :
  pending w1 = Some (filters, now) -> query_at w1 = Ok query ->
  (forall later, later < now + wait -> elapse_to later w1 = Ok w1)
  /\ (forall later,
         now + wait <= later ->
         exists w2,
           elapse_to later w1 = Ok w2
           /\ log w2 = (log w1 ++ apply_now query filters)%list
           /\ pending w2 = None
           /\ commits (apply_now query filters)
              = (if isEqual filters (filterValues_of query) then 0 else 1)%nat
           /\ (isEqual filters (filterValues_of query) = true ->
               search w2 = search w1 /\ params w2 = params w1)
           /\ (isEqual filters (filterValues_of query) = false ->
               params w2 = VObj (set query "filter" (removeEmpty filters))
               /\ get (set query "filter" (removeEmpty filters)) "filter"
                  = removeEmpty filters)).
Proof.
  intros Hp Hq. split.
  - intros later Hlater. exact (elapse_early later w1 filters now Hp Hlater).
  - intros later Hlater.
    destruct (elapse_fires later w1 filters now query Hp Hlater Hq)
      as (w2 & Hw2 & Hl & Hnone & Hsame & Hcommit).
    destruct (applyFilters_cases query filters) as (_ & _ & Hcount).
    exists w2. repeat (split; [assumption|]).
    intros Hne. split; [exact (Hcommit Hne) | apply get_set_same].
Qed.

(** C9, amended.  [showFilter] with a defined default value, made while no
    earlier debounced call is due, changes no filter value at once: it
    dispatches nothing, the query read right after it is the same, and
    the current filter values with [name] set to the default value are
    handed to the debounced [setFilters], in place of a call that was
    still waiting.  If no further call is made before the wait has
    passed, nothing happens before that, and then, unless the merged
    filters are deeply equal to the current ones, there is exactly one
    commit; the params it dispatches to the store have the filter
    [removeEmpty] of the merged filters, in which [name] has the default
    value when that value is not empty.  [hideFilter] likewise hands the
    filter values without key [name] to the debounced [setFilters], and
    the params of its commit have a filter without [name].  A call made
    within the wait supersedes the one before it: [hideFilter] within
    the wait of a [showFilter] for a name that is not a current filter
    leaves nothing to commit, at any later time. *)
Theorem showFilter_hideFilter (w : world) (now : Z) (name : string)
        (dv : value) (query : obj) :
  quiet wait now w = true ->
  query_at w = Ok query ->
  dv <> VUndefined ->
  let fv := filterValues_of query in
  let shown := VObj (set (spread fv) name dv) in
  let hidden := removeKey fv name in
  (exists w1,
      call_showFilter now name dv w = Ok w1
      /\ pending w1 = Some (shown, now)
      /\ log w1 = log w /\ search w1 = search w /\ params w1 = params w
      /\ query_at w1 = Ok query
      /\ member shown name = dv
      /\ (forall later, later < now + wait -> elapse_to later w1 = Ok w1)
      /\ (forall later,
             now + wait <= later ->
             exists w2,
               elapse_to later w1 = Ok w2
               /\ log w2 = (log w ++ apply_now query shown)%list
               /\ commits (apply_now query shown)
                  = (if isEqual shown fv then 0 else 1)%nat
               /\ (isEqual shown fv = false ->
                   params w2 = VObj (set query "filter" (removeEmpty shown))
                   /\ get (set query "filter" (removeEmpty shown)) "filter"
                      = removeEmpty shown
                   /\ (is_empty dv = false ->
                       member (removeEmpty shown) name = dv))))
  /\ (exists w1,
         call_hideFilter now name w = Ok w1
         /\ pending w1 = Some (hidden, now)
         /\ log w1 = log w /\ search w1 = search w /\ params w1 = params w
         /\ query_at w1 = Ok query
         /\ member hidden name = VUndefined
         /\ (forall later, later < now + wait -> elapse_to later w1 = Ok w1)
         /\ (forall later,
                now + wait <= later ->
                exists w2,
                  elapse_to later w1 = Ok w2
                  /\ log w2 = (log w ++ apply_now query hidden)%list
                  /\ commits (apply_now query hidden)
                     = (if isEqual hidden fv then 0 else 1)%nat
                  /\ (isEqual hidden fv = false ->
                      params w2
                      = VObj (set query "filter" (removeEmpty hidden))
                      /\ get (set query "filter" (removeEmpty hidden))
                           "filter"
                         = removeEmpty hidden
                      /\ member (removeEmpty hidden) name = VUndefined)))
  /\ (forall t later : Z,
         t < now + wait ->
         well_formed fv = true ->
         has_key (spread fv) name = false ->
         exists w1 w2 w3,
           call_showFilter now name dv w = Ok w1
           /\ call_hideFilter t name w1 = Ok w2
           /\ elapse_to later w2 = Ok w3
           /\ log w3 = log w /\ search w3 = search w
           /\ params w3 = params w).
Proof.
  intros Hquiet Hq Hdv fv shown hidden.
  pose proof (showFilter_quiet w now name dv query Hquiet Hq Hdv) as Hshow.
  fold fv in Hshow. fold shown in Hshow.
  pose proof (hideFilter_quiet w now name query Hquiet Hq) as Hhide.
  fold fv in Hhide. fold hidden in Hhide.
  split; [|split].
  - rewrite Hshow. set (w1 := mkWorld _ _ _ _ _).
    assert (Hq1 : query_at w1 = Ok query) by exact Hq.
    destruct (pending_call w1 shown now query eq_refl Hq1)
      as [Hbefore Hafter].
    exists w1. do 6 (split; [reflexivity || exact Hq1|]).
    split; [apply get_set_same|]. split; [exact Hbefore|].
    intros later Hlater.
    destruct (Hafter later Hlater)
      as (w2 & Hw2 & Hl & _ & Hcount & _ & Hcommit).
    exists w2. split; [exact Hw2|]. split; [exact Hl|].
    split; [exact Hcount|].
    intros Hne. destruct (Hcommit Hne) as [Hp Hf].
    split; [exact Hp|]. split; [exact Hf|].
    intros Hv. now apply member_removeEmpty_set.
  - rewrite Hhide. set (w1 := mkWorld _ _ _ _ _).
    assert (Hq1 : query_at w1 = Ok query) by exact Hq.
    destruct (pending_call w1 hidden now query eq_refl Hq1)
      as [Hbefore Hafter].
    destruct (member_removeKey fv name) as [Hgone Hgone'].
    exists w1. do 6 (split; [reflexivity || exact Hq1|]).
    split; [exact Hgone|]. split; [exact Hbefore|].
    intros later Hlater.
    destruct (Hafter later Hlater)
      as (w2 & Hw2 & Hl & _ & Hcount & _ & Hcommit).
    exists w2. split; [exact Hw2|]. split; [exact Hl|].
    split; [exact Hcount|].
    intros Hne. destruct (Hcommit Hne) as [Hp Hf].
    split; [exact Hp|]. split; [exact Hf | exact Hgone'].
  - intros t later Ht Hwf Habsent.
    set (w1 := mkWorld (search w) (params w) [(name, VBool true)]
                 (Some (shown, now)) (log w)) in *.
    set (w2 := mkWorld (search w) (params w) [(name, VBool false)]
                 (Some (hidden, t)) (log w)).
    assert (Hq1 : query_at w1 = Ok query) by exact Hq.
    assert (Hq2 : query_at w2 = Ok query) by exact Hq.
    assert (Hquiet1 : quiet wait t w1 = true)
      by (unfold quiet; simpl; now apply Z.ltb_lt).
    assert (Hhide1 : call_hideFilter t name w1 = Ok w2)
      by exact (hideFilter_quiet w1 t name query Hquiet1 Hq1).
    assert (Hsame : hidden = fv).
    { unfold hidden. destruct fv; try reflexivity.
      simpl in *. now rewrite del_absent. }
    assert (Heq : isEqual hidden fv = true)
      by (rewrite Hsame; now apply isEqual_refl).
    destruct (pending_call w2 hidden t query eq_refl Hq2)
      as [Hbefore Hafter].
    exists w1, w2.
    destruct (Z.le_gt_cases (t + wait) later) as [Hdue | Hearly].
    + destruct (Hafter later Hdue)
        as (w3 & Hw3 & Hl & _ & _ & Hkeep & _).
      destruct (Hkeep Heq) as [Hs Hp].
      destruct (applyFilters_cases query hidden) as (Hnone & _ & _).
      rewrite (Hnone Heq), app_nil_r in Hl.
      exists w3. repeat split; assumption.
    + exists w2. rewrite (Hbefore later) by lia.
      repeat split; assumption || reflexivity.
Qed.

Lemma setFilters_returns (now : Z) (filters : value) (w : world) :
  exists w1, call_setFilters now filters w = Ok w1
             /\ displayedFilters w1 = displayedFilters w.
Proof.
  unfold setFilters.
  destruct (elapse_returns now w) as (w' & -> & Hd).
  simpl. eexists. split; [reflexivity | exact Hd].
Qed.

(** C10. Whatever the map of displayed filters was, after [hideFilter] it
    is the one-entry object [{name: false}] and after [showFilter] the
    one-entry object [{name: true}]; the entry of every other filter is
    gone. *)
Theorem displayedFilters_replaced (w : world) (now : Z) (name : string)
        (defaultValue : value) :
  (exists w1,
      call_hideFilter now name w = Ok w1
      /\ displayedFilters w1 = [(name, VBool false)])
  /\ (exists w1,
         call_showFilter now name defaultValue w = Ok w1
         /\ displayedFilters w1 = [(name, VBool true)])
  /\ (forall (b : bool) (other : string),
         has_key [(name, VBool b)] other = (name =? other)%string).
Proof.
  split; [|split].
  - unfold hideFilter.
    destruct (elapse_returns now w) as (w' & -> & _). simpl bind.
    destruct (query_of_returns w') as [q ->]. simpl bind.
    destruct (setFilters_returns now (removeKey (filterValues_of q) name)
                (setDisplayedFilters [(name, VBool false)] w'))
      as (w1 & -> & Hd).
    exists w1. split; [reflexivity | exact Hd].
  - unfold showFilter.
    destruct (elapse_returns now w) as (w' & -> & _). simpl bind.
    destruct (query_of_returns w') as [q ->]. simpl bind.
    destruct (setFilters_returns now
                (VObj (set (spread (filterValues_of q)) name defaultValue))
                (setDisplayedFilters [(name, VBool true)] w'))
      as (w1 & Hw1 & Hd).
    destruct defaultValue;
      try (exists w1; split; [exact Hw1 | exact Hd]).
    eexists. split; reflexivity.
  - intros b other. simpl. apply orb_false_r.
Qed.

End Hook.

(** ** The hook on the resource posts *)

Lemma setFilters_equal_is_noop_witness :
  exists w1 w2,
    posts_setFilters 0 (VObj [("status", VStr "open")]) open_world = Ok w1
    /\ posts_elapse 1000 w1 = Ok w2
    /\ log w2 = [] /\ search w2 = "" /\ params w2 = params open_world.
Proof.
  destruct (setFilters_equal_is_noop QueryString.parse JSON.parse
              QueryString.stringify JSON.stringify posts_options open_world
              0 1000 (VObj [("status", VStr "open")])
              [("filter", VObj [("status", VStr "open")]);
               ("sort", VStr "id"); ("order", VStr "ASC");
               ("perPage", VInt 10); ("page", VInt 1)])
    as (_ & w1 & w2 & H1 & H2 & _ & _ & _ & Hl & Hs & Hp).
  - reflexivity.
  - vm_compute. reflexivity.
  - vm_compute. reflexivity.
  - exists w1, w2. repeat split; assumption.
Defined.

(** C8, counterexample.  Three calls within the wait, the last with the
    filters that are already in effect (none): the wait passes and there
    is no commit at all. *)
Lemma burst_without_commit :
  exists w2,
    (w1 <- posts_setFiltersAll
             [(0, VObj [("a", VInt 1)]); (100, VObj [("b", VInt 2)]);
              (200, VObj [])] fresh_world ;;
     posts_elapse 1000 w1) = Ok w2
    /\ log w2 = []
    /\ commits (log w2) = 0%nat.
Proof. eexists. repeat split; vm_compute; reflexivity. Qed.

Lemma setFilters_burst_witness :
  exists w1 w2,
    posts_setFiltersAll
      [(0, VObj [("a", VInt 1)]); (100, VObj [("b", VInt 2)]);
       (200, VObj [("c", VInt 3); ("d", VStr "")])] fresh_world = Ok w1
    /\ posts_elapse 700 w1 = Ok w2
    /\ commits (log w2) = 1%nat
    /\ params w2
       = VObj [("filter", VObj [("c", VInt 3)]); ("sort", VStr "id");
               ("order", VStr "ASC"); ("perPage", VInt 10);
               ("page", VInt 1)].
Proof.
  destruct (setFilters_burst QueryString.parse JSON.parse
              QueryString.stringify JSON.stringify posts_options fresh_world
              [(0, VObj [("a", VInt 1)]); (100, VObj [("b", VInt 2)])]
              200 (VObj [("c", VInt 3); ("d", VStr "")])
              [("filter", VObj []); ("sort", VStr "id");
               ("order", VStr "ASC"); ("perPage", VInt 10);
               ("page", VInt 1)] 700)
    as (w1 & w2 & H1 & _ & Hpend & H2 & _ & Hdue & _).
  - reflexivity.
  - vm_compute. reflexivity.
  - vm_compute. reflexivity.
  - exists w1, w2. split; [exact H1|]. split; [exact H2|].
    vm_compute in H1. injection H1 as <-.
    vm_compute in H2. injection H2 as <-.
    split; reflexivity.
Defined.

(** C9, counterexample.  Right after [showFilter('status', 'open')] on a
    first visit nothing has been dispatched, and the filter values read
    from the unchanged location and store are still empty. *)
Lemma showFilter_not_immediate :
  exists w1 q,
    posts_showFilter 0 "status" (VStr "open") fresh_world = Ok w1
    /\ log w1 = []
    /\ posts_query_of w1 = Ok q
    /\ filterValues_of q = VObj []
    /\ member (filterValues_of q) "status" = VUndefined.
Proof. eexists. eexists. repeat split; vm_compute; reflexivity. Qed.

Lemma showFilter_hideFilter_witness :
  (exists w1 w2,
      posts_showFilter 0 "status" (VStr "open") fresh_world = Ok w1
      /\ posts_elapse 500 w1 = Ok w2
      /\ member (member (params w2) "filter") "status" = VStr "open")
  /\ (exists w1 w2 w3,
         posts_showFilter 0 "status" (VStr "open") fresh_world = Ok w1
         /\ posts_hideFilter 100 "status" w1 = Ok w2
         /\ posts_elapse 1100 w3 = Ok w3
         /\ posts_elapse 1100 w2 = Ok w3
         /\ log w3 = [] /\ params w3 = params fresh_world).
Proof.
  destruct (showFilter_hideFilter QueryString.parse JSON.parse
              QueryString.stringify JSON.stringify posts_options fresh_world
              0 "status" (VStr "open")
              [("filter", VObj []); ("sort", VStr "id");
               ("order", VStr "ASC"); ("perPage", VInt 10);
               ("page", VInt 1)])
    as [(w1 & H1 & _ & _ & _ & _ & _ & _ & _ & Hafter) [_ Hsuper]].
  - reflexivity.
  - vm_compute. reflexivity.
  - discriminate.
  - split.
    + destruct (Hafter 500) as (w2 & H2 & _ & _ & Hcommit);
        [vm_compute; discriminate|].
      exists w1, w2. split; [exact H1|]. split; [exact H2|].
      destruct Hcommit as (Hp & Hf & Hv); [vm_compute; reflexivity|].
      rewrite Hp. cbn [member]. rewrite Hf. apply Hv. reflexivity.
    + destruct (Hsuper 100 1100) as (v1 & v2 & v3 & G1 & G2 & G3 & Gl & _ & Gp);
        [reflexivity | reflexivity | reflexivity |].
      exists v1, v2, v3. split; [exact G1|]. split; [exact G2|].
      assert (E1 : v1 = mkWorld (search fresh_world) (params fresh_world)
                         [("status", VBool true)]
                         (Some (VObj [("status", VStr "open")], 0)) [])
        by (vm_compute in G1; now injection G1).
      subst v1.
      assert (E2 : v2 = mkWorld (search fresh_world) (params fresh_world)
                         [("status", VBool false)]
                         (Some (VObj [], 100)) [])
        by (vm_compute in G2; now injection G2).
      subst v2. vm_compute in G3. injection G3 as <-.
      repeat split; vm_compute; reflexivity.
Defined.

(** The whole round on the reference libraries: once the wait has passed
    the filter values read from the new location include status, and
    after [hideFilter] and another wait they no longer do. *)
Example show_then_hide_run :
  exists w2 q2 w4 q4,
    (w1 <- posts_showFilter 0 "status" (VStr "open") fresh_world ;;
     posts_elapse 500 w1) = Ok w2
    /\ posts_query_of w2 = Ok q2
    /\ filterValues_of q2 = VObj [("status", VStr "open")]
    /\ (w3 <- posts_hideFilter 600 "status" w2 ;; posts_elapse 1100 w3)
       = Ok w4
    /\ posts_query_of w4 = Ok q4
    /\ filterValues_of q4 = VObj []
    /\ displayedFilters w4 = [("status", VBool false)].
Proof.
  do 4 eexists.
  do 6 (split; [vm_compute; reflexivity|]).
  vm_compute; reflexivity.
Qed.


(** * Further properties of the module *)

(** ** The query extractor *)

Lemma keys_set_present (o : obj) (k : string) (v : value) :
  has_key o k = true -> keys (set o k v) = keys o.
Proof.
  induction o as [|[k' v'] rest IH]; simpl; [discriminate|].
  destruct (String.eqb_spec k' k) as [->|Hne]; simpl; [reflexivity|].
  intros Hk. now rewrite IH.
Qed.

Lemma keys_del_incl (o : obj) (k x : string) :
  In x (keys (del o k)) -> In x (keys o).
Proof.
  induction o as [|[k' v'] rest IH]; simpl; [tauto|].
  destruct (k' =? k)%string; simpl; intuition.
Qed.

Lemma keys_pickBy (o : obj) (p : value -> string -> bool) (x : string) :
  In x (keys (pickBy o p)) -> exists v, In (x, v) o /\ p v x = true.
Proof.
  unfold keys, pickBy. intros Hin. apply in_map_iff in Hin as ([k v] & <- & Hin).
  apply filter_In in Hin as [Hin Hp]. now exists v.
Qed.

Lemma indexOf_In (l : list string) (k : string) :
  negb (indexOf l k =? -1) = true <-> In k l.
Proof.
  induction l as [|x rest IH]; simpl.
  - split; [discriminate | tauto].
  - destruct (String.eqb_spec x k) as [->|Hne]; simpl.
    + split; auto.
    + destruct (indexOf rest k =? -1) eqn:E; simpl in *.
      * split; [discriminate|]. intros [H|H]; [contradiction|].
        now apply IH in H.
      * assert (Hnonneg : forall l', -1 <= indexOf l' k).
        { induction l' as [|y l' IH']; simpl; [lia|].
          destruct (y =? k)%string; [lia|].
          destruct (indexOf l' k =? -1); lia. }
        specialize (Hnonneg rest). apply Z.eqb_neq in E.
        destruct (Z.eqb_spec (indexOf rest k + 1) (-1)); [lia|].
        split; [intros _; right; now apply IH | reflexivity].
Qed.

Lemma pickBy_none (o : obj) (p : value -> string -> bool) :
  (forall k v, In (k, v) o -> p v k = false) -> pickBy o p = [].
Proof.
  unfold pickBy. induction o as [|[k v] rest IH]; intros Hnone;
    [reflexivity|].
  cbn [List.filter fst snd]. rewrite (Hnone k v) by (left; reflexivity).
  apply IH. intros k' v' Hin. apply Hnone. now right.
Qed.

(** X1. Whatever the query string and the libraries give, every key of
    the object returned by [parseQueryFromLocation] is one of page,
    perPage, sort, order and filter. *)
Theorem parseQueryFromLocation_whitelist
        (parse : string -> obj) (JSON_parse : string -> result value)
        (search : string) :
  exists q,
    parseQueryFromLocation parse JSON_parse search = Ok q
    /\ forall k, In k (keys q) -> In k validQueryParams.
Proof.
  unfold parseQueryFromLocation. cbv zeta.
  set (picked := pickBy _ _).
  assert (Hpicked : forall k, In k (keys picked) -> In k validQueryParams).
  { intros k Hin. apply keys_pickBy in Hin as (v & _ & Hp).
    now apply indexOf_In. }
  destruct (truthy (get picked "filter") && _) eqn:Hguard;
    [|exists picked; split; [reflexivity | exact Hpicked]].
  apply andb_true_iff in Hguard as [Htruthy _].
  destruct (JSON_parse _) as [parsed|e]; simpl.
  - eexists. split; [reflexivity|].
    rewrite keys_set_present by now apply truthy_has_key. exact Hpicked.
  - eexists. split; [reflexivity|].
    intros k Hin. apply Hpicked. now apply keys_del_incl in Hin.
Qed.

Lemma parseQueryFromLocation_whitelist_witness :
  exists q,
    parseQueryFromLocation QueryString.parse JSON.parse
      "?page=2&utm=mail&order=DESC" = Ok q
    /\ keys q = ["order"; "page"]
    /\ In "order" validQueryParams /\ In "page" validQueryParams.
Proof.
  destruct (parseQueryFromLocation_whitelist QueryString.parse JSON.parse
              "?page=2&utm=mail&order=DESC") as (q & Hq & Hall).
  exists q. split; [exact Hq|].
  assert (Hkeys : keys q = ["order"; "page"])
    by (vm_compute in Hq; injection Hq as <-; reflexivity).
  split; [exact Hkeys|].
  split; apply Hall; rewrite Hkeys; simpl; auto.
Defined.

(** X2. A query string in which [parse] finds no recognised key is
    extracted to the empty object, and JSON.parse is not consulted. *)
Theorem parseQueryFromLocation_unrecognised
        (parse : string -> obj) (JSON_parse : string -> result value)
        (search : string) :
  (forall k v, In (k, v) (parse search) -> ~ In k validQueryParams) ->
  parseQueryFromLocation parse JSON_parse search = Ok [].
Proof.
  intros Hnone. unfold parseQueryFromLocation. cbv zeta.
  assert (Hempty : pickBy (parse search)
                     (fun v k => negb (indexOf validQueryParams k =? -1))
                   = []).
  { apply pickBy_none. intros k v Hin.
    destruct (negb (indexOf validQueryParams k =? -1)) eqn:E;
      [|reflexivity].
    apply indexOf_In in E. now apply Hnone in Hin. }
  now rewrite Hempty.
Qed.

Lemma parseQueryFromLocation_unrecognised_witness :
  parseQueryFromLocation QueryString.parse JSON.parse "?utm=mail&tab=2"
  = Ok [].
Proof.
  apply parseQueryFromLocation_unrecognised.
  intros k v Hin. vm_compute in Hin.
  destruct Hin as [[= <- <-]|[[= <- <-]|[]]]; simpl;
    intros H; repeat (destruct H as [H|H]; [discriminate|]); exact H.
Defined.

(** X3. When the filter of the query string is a non-empty string that
    JSON.parse accepts, the extracted object has the parsed value under
    filter, the same keys in the same order, and every other key with
    the value it had. *)
Theorem parseQueryFromLocation_json_filter
        (parse : string -> obj) (JSON_parse : string -> result value)
        (search s : string) (parsed : value) :
  let picked :=
    pickBy (parse search)
      (fun v k => negb (indexOf validQueryParams k =? -1)) in
  get picked "filter" = VStr s -> s <> "" -> JSON_parse s = Ok parsed ->
  exists q,
    parseQueryFromLocation parse JSON_parse search = Ok q
    /\ get q "filter" = parsed
    /\ keys q = keys picked
    /\ forall k, k <> "filter" -> get q k = get picked k.
Proof.
  intros picked Hf Hs Hj. unfold parseQueryFromLocation. fold picked.
  cbv zeta. rewrite Hf. simpl.
  destruct (String.eqb_spec s ""); [contradiction|]. simpl. rewrite Hj.
  simpl. eexists. split; [reflexivity|].
  split; [apply get_set_same|]. split.
  - apply keys_set_present, truthy_has_key. rewrite Hf. simpl.
    destruct (String.eqb_spec s ""); [contradiction | reflexivity].
  - intros k Hk. apply get_set_other. congruence.
Qed.

Lemma parseQueryFromLocation_json_filter_witness :
  exists q,
    parseQueryFromLocation QueryString.parse JSON.parse
      "?page=2&filter=%7B%22status%22%3A%22open%22%7D" = Ok q
    /\ get q "filter" = VObj [("status", VStr "open")]
    /\ get q "page" = VStr "2".
Proof.
  destruct (parseQueryFromLocation_json_filter QueryString.parse JSON.parse
              "?page=2&filter=%7B%22status%22%3A%22open%22%7D"
              (String "{" (quoted "status" ++ ":" ++ quoted "open" ++ "}"))
              (VObj [("status", VStr "open")]))
    as (q & Hq & Hf & _ & Hother).
  - reflexivity.
  - discriminate.
  - reflexivity.
  - exists q. split; [exact Hq|]. split; [exact Hf|].
    rewrite Hother by discriminate. reflexivity.
Defined.

(** X4. A filter that is absent from the query string, or present with a
    value that is not a string (null for a bare [filter], an array for a
    repeated one), is never given to JSON.parse: the recognised keys are
    returned as they are. *)
Theorem parseQueryFromLocation_other_filter
        (parse : string -> obj) (JSON_parse : string -> result value)
        (search : string) :
  is_string
    (get (pickBy (parse search)
            (fun v k => negb (indexOf validQueryParams k =? -1))) "filter")
  = false ->
  parseQueryFromLocation parse JSON_parse search
  = Ok (pickBy (parse search)
          (fun v k => negb (indexOf validQueryParams k =? -1))).
Proof.
  intros Hs. unfold parseQueryFromLocation. cbv zeta.
  destruct (get _ "filter"); simpl in *; try discriminate;
    rewrite ?andb_false_r; reflexivity.
Qed.

Lemma parseQueryFromLocation_other_filter_witness :
  parseQueryFromLocation QueryString.parse JSON.parse
    "?filter=a&filter=b&sort=title"
  = Ok [("filter", VArr [VStr "a"; VStr "b"]); ("sort", VStr "title")].
Proof.
  apply (parseQueryFromLocation_other_filter QueryString.parse JSON.parse
           "?filter=a&filter=b&sort=title").
  reflexivity.
Defined.

(** ** The merger *)

(** X5. A query string whose only recognised key is a non-empty filter
    that JSON.parse rejects counts as no query string at all: [getQuery]
    answers from the stored params when they are custom and from the
    defaults otherwise. *)
Theorem getQuery_malformed_filter_only
        (parse : string -> obj) (JSON_parse : string -> result value)
        (search s : string) (e : exn) (params fdv : value) (sort : Sort)
        (perPage : value) :
  pickBy (parse search) (fun v k => negb (indexOf validQueryParams k =? -1))
  = [("filter", VStr s)] ->
  s <> "" ->
  JSON_parse s = Throw e ->
  getQuery parse JSON_parse search params fdv sort perPage
  = Ok (fillDefaults
          (if holds (hasCustomParams params) then spread params
           else [("filter", js_or fdv (VObj []))])
          sort perPage).
Proof.
  intros Hpicked Hs Hj.
  destruct (getQuery_returns parse JSON_parse search params fdv sort perPage)
    as (q & Hq & ->).
  unfold parseQueryFromLocation in Hq. cbv zeta in Hq.
  rewrite Hpicked in Hq. simpl in Hq.
  destruct (String.eqb_spec s ""); [contradiction|]. simpl in Hq.
  rewrite Hj in Hq. simpl in Hq. injection Hq as <-. reflexivity.
Qed.

Lemma getQuery_malformed_filter_only_witness :
  getQuery QueryString.parse JSON.parse "?filter={bad&tab=2"
    (VObj [("filter", VObj [("a", VInt 1)]); ("page", VInt 2)])
    VUndefined defaultSort (VInt 10)
  = Ok [("filter", VObj [("a", VInt 1)]); ("page", VInt 2);
        ("sort", VStr "id"); ("order", VStr "ASC"); ("perPage", VInt 10)].
Proof.
  rewrite (getQuery_malformed_filter_only QueryString.parse JSON.parse
             "?filter={bad&tab=2" "{bad" SyntaxError).
  - reflexivity.
  - reflexivity.
  - discriminate.
  - reflexivity.
Defined.

Lemma fillDefaults_other (q : obj) (sort : Sort) (perPage : value)
      (k : string) :
  k <> "sort" -> k <> "order" -> k <> "perPage" -> k <> "page" ->
  get (fillDefaults q sort perPage) k = get q k
  /\ has_key (fillDefaults q sort perPage) k = has_key q k.
Proof.
  intros Hs Ho Hpp Hp. unfold fillDefaults. cbv zeta.
  rewrite !get_set_other, !has_key_set_other by congruence.
  destruct (truthy (get q "sort")); cbn [negb];
    rewrite ?get_set_other by congruence;
    destruct (truthy (get q "perPage")); cbn [negb];
    rewrite ?get_set_other by congruence;
    destruct (truthy (get q "page")); cbn [negb];
    rewrite ?get_set_other, ?has_key_set_other by congruence;
    split; reflexivity.
Qed.

Lemma fillDefaults_keys (q : obj) (sort : Sort) (perPage : value) :
  has_key (fillDefaults q sort perPage) "sort" = true
  /\ has_key (fillDefaults q sort perPage) "perPage" = true
  /\ has_key (fillDefaults q sort perPage) "page" = true.
Proof.
  destruct (fillDefaults_page_ok q sort perPage) as [Hp _].
  destruct (fillDefaults_perPage_ok q sort perPage) as [Hpp _].
  split; [|split; now apply truthy_has_key].
  destruct (truthy (get q "sort")) eqn:Hs.
  - apply truthy_has_key.
    destruct (fillDefaults_sort q sort perPage) as [-> _].
    now rewrite Hs.
  - now apply fillDefaults_sort_keys.
Qed.

(** X6. The merged output always has the keys sort, perPage and page,
    and [getQuery] fills in nothing else: every key other than sort,
    order, perPage and page is in the output exactly when it is in the
    working query, with the same value. *)
Theorem getQuery_frame
        (parse : string -> obj) (JSON_parse : string -> result value)
        (search : string) (params fdv : value) (sort : Sort)
        (perPage : value) :
  exists q wq out,
    parseQueryFromLocation parse JSON_parse search = Ok q
    /\ workingQuery q params fdv = Ok wq
    /\ getQuery parse JSON_parse search params fdv sort perPage = Ok out
    /\ has_key out "sort" = true
    /\ has_key out "perPage" = true
    /\ has_key out "page" = true
    /\ forall k : string,
        k <> "sort" -> k <> "order" -> k <> "perPage" -> k <> "page" ->
        get out k = get wq k /\ has_key out k = has_key wq k.
Proof.
  destruct (getQuery_returns parse JSON_parse search params fdv sort perPage)
    as (q & Hq & Hout).
  eexists q, _, _. split; [exact Hq|].
  split; [apply workingQuery_returns|]. split; [exact Hout|].
  set (wq := if 0 <? Z.of_nat (List.length (keys q)) then q else _).
  destruct (fillDefaults_keys wq sort perPage) as (Hs & Hpp & Hp).
  repeat (split; [assumption|]).
  intros k. apply fillDefaults_other.
Qed.

Lemma getQuery_frame_witness :
  exists out,
    getQuery QueryString.parse JSON.parse ""
      (VObj [("filter", VObj [("a", VInt 1)]); ("page", VInt 2);
             ("selectedIds", VArr [VInt 7])])
      VUndefined defaultSort (VInt 10) = Ok out
    /\ get out "selectedIds" = VArr [VInt 7].
Proof.
  destruct (getQuery_frame QueryString.parse JSON.parse ""
              (VObj [("filter", VObj [("a", VInt 1)]); ("page", VInt 2);
                     ("selectedIds", VArr [VInt 7])])
              VUndefined defaultSort (VInt 10))
    as (q & wq & out & Hq & Hwq & Hout & _ & _ & _ & Hother).
  exists out. split; [exact Hout|].
  vm_compute in Hq. injection Hq as <-.
  vm_compute in Hwq. injection Hwq as <-.
  destruct (Hother "selectedIds") as [-> _]; try discriminate.
  reflexivity.
Defined.

(** X7. On a visit whose query string has no recognised key and whose
    stored params are not custom, [getQuery] returns exactly the caller's
    defaults: the default filter values or [{}], the default sort field
    and order, the default page size through [getNumberOrDefault], and
    page 1. *)
Theorem getQuery_first_visit
        (parse : string -> obj) (JSON_parse : string -> result value)
        (search : string) (params fdv : value) (sort : Sort)
        (perPage : value) :
  parseQueryFromLocation parse JSON_parse search = Ok [] ->
  holds (hasCustomParams params) = false ->
  getQuery parse JSON_parse search params fdv sort perPage
  = Ok [("filter", js_or fdv (VObj [])); ("sort", VStr (field sort));
        ("order", VStr (order sort));
        ("perPage", getNumberOrDefault perPage (VInt 10));
        ("page", VInt 1)].
Proof.
  intros Hq Hcustom.
  destruct (getQuery_returns parse JSON_parse search params fdv sort perPage)
    as (q & Hq' & ->).
  rewrite Hq in Hq'. injection Hq' as <-. simpl. rewrite Hcustom.
  reflexivity.
Qed.

Lemma getQuery_first_visit_witness :
  getQuery QueryString.parse JSON.parse "?tab=2" (VObj initialParams)
    (VObj [("status", VStr "open")]) (mkSort "title" "DESC") (VStr "25")
  = Ok [("filter", VObj [("status", VStr "open")]); ("sort", VStr "title");
        ("order", VStr "DESC"); ("perPage", VInt 25); ("page", VInt 1)].
Proof.
  apply (getQuery_first_visit QueryString.parse JSON.parse "?tab=2"
           (VObj initialParams) (VObj [("status", VStr "open")])
           (mkSort "title" "DESC") (VStr "25")); reflexivity.
Defined.

(** ** hasCustomParams *)

(** X8. The params a resource has in the store before any navigation are
    not custom, and every departure from them is noticed: an order, a
    perPage or a sort that is not null, a page other than the number 1,
    or a truthy filter with at least one key. *)
Theorem hasCustomParams_initial :
  holds (hasCustomParams (VObj initialParams)) = false
  /\ (forall v : value,
         holds (hasCustomParams (VObj (set initialParams "order" v)))
         = not_nullish v)
  /\ (forall v : value,
         holds (hasCustomParams (VObj (set initialParams "perPage" v)))
         = not_nullish v)
  /\ (forall v : value,
         holds (hasCustomParams (VObj (set initialParams "sort" v)))
         = not_nullish v)
  /\ (forall v : value,
         holds (hasCustomParams (VObj (set initialParams "page" v)))
         = strict_neq_int v 1)
  /\ (forall f : value,
         holds (hasCustomParams (VObj (set initialParams "filter" f)))
         = truthy f
           && (0 <? Z.of_nat (List.length (keys (spread f))))).
Proof.
  split; [reflexivity|].
  repeat split; intros v; rewrite holds_custom; unfold custom_by_spec;
    simpl.
  all: rewrite ?orb_false_r; try reflexivity; now destruct v.
Qed.

(** X9. An output of [getQuery], stored as the params of the resource, is
    custom exactly when its filter is truthy. *)
Theorem getQuery_output_custom
        (parse : string -> obj) (JSON_parse : string -> result value)
        (search : string) (params fdv : value) (sort : Sort)
        (perPage : value) :
  exists out,
    getQuery parse JSON_parse search params fdv sort perPage = Ok out
    /\ holds (hasCustomParams (VObj out)) = truthy (get out "filter").
Proof.
  destruct (getQuery_returns parse JSON_parse search params fdv sort perPage)
    as (q & _ & Hout).
  eexists. split; [exact Hout|].
  set (wq := if 0 <? Z.of_nat (List.length (keys q)) then q else _).
  rewrite holds_custom. unfold custom_by_spec. cbn [is_defined member andb].
  destruct (fillDefaults_perPage_ok wq sort perPage) as [Hpp _].
  rewrite (truthy_not_nullish _ Hpp), !orb_true_r.
  apply andb_true_r.
Qed.

(** ** Numbers through the query string *)

Lemma leading_digits_step (c : ascii) (k : Z) (s : string)
      (acc : option Z) :
  digit_of c = Some k ->
  leading_digits (String c s) acc
  = leading_digits s
      (Some (10 * match acc with Some a => a | None => 0 end + k)).
Proof. intros H. cbn [leading_digits]. now rewrite H. Qed.

Ltac read_digit :=
  cbn [NilEmpty.string_of_uint Pos.of_uint_acc Pos.of_uint];
  erewrite leading_digits_step by (vm_compute; reflexivity).

Lemma leading_digits_acc (d : Decimal.uint) (acc : positive) :
  leading_digits (NilEmpty.string_of_uint d) (Some (Zpos acc))
  = Some (Zpos (Pos.of_uint_acc d acc)).
Proof.
  revert acc. induction d; intros acc; [reflexivity|..];
    read_digit; rewrite <- IHd; do 2 f_equal; lia.
Qed.

Lemma leading_digits_zero (d : Decimal.uint) :
  leading_digits (NilEmpty.string_of_uint d) (Some 0)
  = Some (Z.of_N (Pos.of_uint d)).
Proof.
  induction d; [reflexivity|..]; read_digit;
    first [exact IHd | apply leading_digits_acc].
Qed.

Lemma leading_digits_start (d : Decimal.uint) :
  d <> Decimal.Nil ->
  leading_digits (NilEmpty.string_of_uint d) None
  = Some (Z.of_N (Pos.of_uint d)).
Proof.
  destruct d; intros Hd; try contradiction; read_digit;
    first [apply leading_digits_zero | apply leading_digits_acc].
Qed.

Lemma skip_spaces_ascii (c : ascii) (s : string) :
  is_space c = false -> (nat_of_ascii c < 128)%nat ->
  skip_spaces (String c s) = String c s.
Proof.
  intros Hspace Hc. cbn [skip_spaces]. rewrite Hspace.
  assert (Hne : forall k, (128 <= k)%nat -> (nat_of_ascii c =? k)%nat = false)
    by (intros k Hk; apply Nat.eqb_neq; lia).
  destruct s as [|b [|d rest]]; try reflexivity;
    unfold is_space2, is_space3; cbv zeta;
    rewrite ?(Hne 194%nat), ?(Hne 225%nat), ?(Hne 226%nat), ?(Hne 227%nat),
      ?(Hne 239%nat) by lia; reflexivity.
Qed.

Lemma parseInt_unsigned (c : ascii) (s : string) :
  is_space c = false -> (nat_of_ascii c < 128)%nat ->
  c <> "-"%char -> c <> "+"%char ->
  parseInt (String c s)
  = match leading_digits (String c s) None with
    | None => NaN
    | Some n => round_double n
    end.
Proof.
  intros Hspace Hc Hminus Hplus. unfold parseInt.
  rewrite (skip_spaces_ascii c s Hspace Hc).
  destruct c as [[] [] [] [] [] [] [] []]; try reflexivity; congruence.
Qed.

Lemma parseInt_signed (s : string) :
  parseInt (String "-" s)
  = match leading_digits s None with
    | None => NaN
    | Some n => round_double (- n)
    end.
Proof.
  unfold parseInt.
  rewrite skip_spaces_ascii;
    [reflexivity | reflexivity | now apply Nat.ltb_lt].
Qed.

Lemma parseInt_digits (d : Decimal.uint) :
  d <> Decimal.Nil ->
  parseInt (NilEmpty.string_of_uint d)
  = round_double (Z.of_N (Pos.of_uint d))
  /\ parseInt (String "-" (NilEmpty.string_of_uint d))
     = round_double (- Z.of_N (Pos.of_uint d)).
Proof.
  intros Hd. pose proof (leading_digits_start d Hd) as H.
  split; [|now rewrite parseInt_signed, H].
  destruct d; try contradiction; cbn [NilEmpty.string_of_uint] in *;
    rewrite parseInt_unsigned
      by (reflexivity || discriminate || now apply Nat.ltb_lt);
    now rewrite H.
Qed.

Lemma parseInt_decimal (z : Z) : parseInt (decimal z) = round_double z.
Proof.
  unfold decimal.
  assert (Hnil : forall d, d <> Decimal.Nil ->
                   NilZero.string_of_uint d = NilEmpty.string_of_uint d)
    by (intros d Hd; destruct d; try contradiction; reflexivity).
  destruct z as [|p|p]; [reflexivity|..];
    cbn [Z.to_int NilZero.string_of_int];
    rewrite (Hnil _ (DecimalPos.Unsigned.to_uint_nonnil p)).
  - rewrite (proj1 (parseInt_digits _
                      (DecimalPos.Unsigned.to_uint_nonnil p))).
    now rewrite DecimalPos.Unsigned.of_to.
  - rewrite (proj2 (parseInt_digits _
                      (DecimalPos.Unsigned.to_uint_nonnil p))).
    now rewrite DecimalPos.Unsigned.of_to.
Qed.

(** X10. An integer up to 2^53 in size, written into the query string,
    comes back as it was: [String] gives its decimal digits, [parseInt]
    of them is the integer, and [getNumberOrDefault] returns it, or the
    default when it is zero.  Beyond 2^53 [parseInt] rounds to the nearest
    double. *)
Theorem getNumberOrDefault_decimal (z : Z) (defaultValue : value) :
  Z.abs z <= 9007199254740992 ->
  to_string (VInt z) = decimal z
  /\ parseInt (to_string (VInt z)) = Int z
  /\ getNumberOrDefault (VStr (to_string (VInt z))) defaultValue
     = (if z =? 0 then defaultValue else VInt z).
Proof.
  intros Hz. apply Z.leb_le in Hz.
  assert (Htext : to_string (VInt z) = decimal z).
  { unfold VInt. cbn [to_string number_text]. now rewrite Hz. }
  assert (Hparse : parseInt (to_string (VInt z)) = Int z).
  { rewrite Htext, parseInt_decimal. unfold round_double. now rewrite Hz. }
  split; [exact Htext|]. split; [exact Hparse|].
  unfold getNumberOrDefault, js_or. rewrite Hparse. simpl.
  now destruct (z =? 0).
Qed.

Lemma getNumberOrDefault_decimal_witness :
  parseInt "9007199254740992" = Int 9007199254740992
  /\ parseInt "9007199254740993" = Int 9007199254740992.
Proof.
  split.
  - destruct (getNumberOrDefault_decimal 9007199254740992 VUndefined)
      as (_ & Hparse & _); [simpl; lia | exact Hparse].
  - vm_compute. reflexivity.
Defined.

(** X11. [getNumberOrDefault] settles in one step: with a default that is
    truthy and not a string, as 1 and 10 are, applying it to its own
    result changes nothing. *)
Theorem getNumberOrDefault_idempotent (x defaultValue : value) :
  truthy defaultValue = true ->
  is_string defaultValue = false ->
  getNumberOrDefault (getNumberOrDefault x defaultValue) defaultValue
  = getNumberOrDefault x defaultValue.
Proof.
  intros Ht Hs. apply getNumberOrDefault_fixed.
  - now apply getNumberOrDefault_truthy.
  - now apply getNumberOrDefault_not_string.
Qed.

Lemma getNumberOrDefault_idempotent_witness :
  getNumberOrDefault (getNumberOrDefault (VStr "12px") (VInt 10)) (VInt 10)
  = VInt 12.
Proof.
  rewrite (getNumberOrDefault_idempotent (VStr "12px") (VInt 10));
    reflexivity.
Defined.

(** ** removeTags *)

Lemma after_gt_shorter (s t : string) :
  after_gt s = Some t -> (String.length t < String.length s)%nat.
Proof.
  revert t. induction s as [|c rest IH]; simpl; intros t H; [discriminate|].
  destruct (Ascii.eqb c ">").
  - injection H as <-. lia.
  - specialize (IH t H). lia.
Qed.

Lemma match_tag_shorter (s t : string) :
  match_tag s = Some t -> (String.length t < String.length s)%nat.
Proof.
  unfold match_tag. destruct s as [|c [|d rest]]; try discriminate.
  - destruct c as [[] [] [] [] [] [] [] []]; discriminate.
  - intros H. assert (Hrest : after_gt rest = Some t).
    { destruct c as [[] [] [] [] [] [] [] []]; try discriminate.
      now destruct (Ascii.eqb d ">"). }
    apply after_gt_shorter in Hrest. simpl. lia.
Qed.

Lemma strip_tags_enough (n m : nat) (s : string) :
  (String.length s <= n)%nat -> (String.length s <= m)%nat ->
  strip_tags n s = strip_tags m s.
Proof.
  revert m s. induction n as [|n IH]; intros m s Hn Hm.
  - destruct s; simpl in Hn; [|lia]. now destruct m.
  - destruct m as [|m]; [destruct s; simpl in Hm; [reflexivity | lia]|].
    destruct s as [|c rest]; [reflexivity|].
    cbn [strip_tags]. simpl in Hn, Hm.
    destruct (match_tag (String c rest)) as [tail|] eqn:Ht.
    + apply match_tag_shorter in Ht. simpl in Ht. apply IH; lia.
    + f_equal. apply IH; lia.
Qed.

(** The unfolding of [replace_tags], without fuel. *)
Lemma replace_tags_step (c : ascii) (rest : string) :
  replace_tags (String c rest)
  = match match_tag (String c rest) with
    | Some tail => replace_tags tail
    | None => String c (replace_tags rest)
    end.
Proof.
  unfold replace_tags. cbn [String.length strip_tags].
  destruct (match_tag (String c rest)) as [tail|] eqn:Ht.
  - apply match_tag_shorter in Ht. simpl in Ht.
    apply strip_tags_enough; lia.
  - reflexivity.
Qed.

Lemma string_length_ind (P : string -> Prop) :
  (forall s, (forall t, (String.length t < String.length s)%nat -> P t) ->
             P s) ->
  forall s, P s.
Proof.
  intros Hstep s.
  assert (H : forall n t, (String.length t < n)%nat -> P t).
  { induction n as [|n IH]; intros t Ht; [lia|].
    apply Hstep. intros u Hu. apply IH. lia. }
  apply (H (S (String.length s))). lia.
Qed.

Lemma after_gt_occurs (s : string) :
  occurs ">" s = false -> after_gt s = None.
Proof.
  induction s as [|c rest IH]; simpl; [reflexivity|].
  destruct (Ascii.eqb c ">"); simpl; [discriminate | exact IH].
Qed.

Lemma match_tag_head (c : ascii) (s : string) :
  c <> "<"%char -> match_tag (String c s) = None.
Proof.
  intros Hc. unfold match_tag.
  destruct c as [[] [] [] [] [] [] [] []]; try reflexivity; congruence.
Qed.

Lemma match_tag_lt (s : string) :
  match_tag (String "<" s)
  = match s with
    | String c rest => if Ascii.eqb c ">" then None else after_gt rest
    | EmptyString => None
    end.
Proof. reflexivity. Qed.

Lemma match_tag_occurs (s : string) :
  occurs ">" s = false -> match_tag s = None.
Proof.
  destruct s as [|c rest]; [reflexivity|]. intros Hs.
  destruct (Ascii.eqb_spec c "<") as [->|Hc]; [|now apply match_tag_head].
  rewrite match_tag_lt. destruct rest as [|d rest']; [reflexivity|].
  simpl in Hs. destruct (Ascii.eqb d ">"); [reflexivity|].
  now apply after_gt_occurs.
Qed.

Lemma tag_free_fixed (s : string) : tag_free s = true -> replace_tags s = s.
Proof.
  induction s as [|c rest IH]; [reflexivity|].
  rewrite replace_tags_step. cbn [tag_free].
  destruct (match_tag (String c rest)); [discriminate|].
  intros H. now rewrite IH.
Qed.

Lemma tag_free_no_gt (s : string) : occurs ">" s = false -> tag_free s = true.
Proof.
  induction s as [|c rest IH]; [reflexivity|]. intros Hs.
  cbn [tag_free]. rewrite (match_tag_occurs _ Hs).
  apply IH. simpl in Hs. now apply orb_false_iff in Hs.
Qed.

Lemma tag_free_no_lt (s : string) : occurs "<" s = false -> tag_free s = true.
Proof.
  induction s as [|c rest IH]; [reflexivity|]. simpl occurs. intros Hs.
  apply orb_false_iff in Hs as [Hc Hrest].
  cbn [tag_free]. rewrite match_tag_head.
  - now apply IH.
  - intros ->. discriminate.
Qed.

Lemma replace_tags_tag_free (s : string) : tag_free (replace_tags s) = true.
Proof.
  induction s as [s IH] using string_length_ind.
  destruct s as [|c rest]; [reflexivity|].
  rewrite replace_tags_step.
  destruct (match_tag (String c rest)) as [tail|] eqn:Ht.
  - apply IH. now apply match_tag_shorter.
  - assert (Hrest : tag_free (replace_tags rest) = true)
      by (apply IH; simpl; lia).
    cbn [tag_free].
    destruct (Ascii.eqb_spec c "<") as [->|Hc];
      [|now rewrite match_tag_head].
    rewrite match_tag_lt in *.
    destruct rest as [|d rest']; [reflexivity|].
    destruct (Ascii.eqb_spec d ">") as [->|Hd].
    + rewrite replace_tags_step in *.
      rewrite match_tag_head in * by discriminate.
      now rewrite Ascii.eqb_refl.
    + (* no [>] follows: the rest is left as it is *)
      assert (Hnone : occurs ">" (String d rest') = false).
      { simpl. destruct (Ascii.eqb_spec d ">"); [contradiction|]. simpl.
        clear - Ht. induction rest' as [|x r IHr]; [reflexivity|].
        simpl in *. destruct (Ascii.eqb x ">"); [discriminate | auto]. }
      rewrite (tag_free_fixed _ (tag_free_no_gt _ Hnone)) in *.
      destruct (Ascii.eqb_spec d ">"); [contradiction|].
      now rewrite Ht.
Qed.

Lemma removeTags_string (s : string) :
  removeTags (VStr s) = Ok (VStr (replace_tags s)).
Proof.
  unfold removeTags. simpl. now destruct (String.eqb_spec s "") as [->|].
Qed.

(** X12. [removeTags] is idempotent: whenever it returns, its result is a
    string in which no tag is left, and stripping that again gives the
    same string. *)
Theorem removeTags_idempotent (input out : value) :
  removeTags input = Ok out ->
  removeTags out = Ok out
  /\ exists t, out = VStr t /\ tag_free t = true.
Proof.
  unfold removeTags at 1. destruct (truthy input).
  - destruct input; try discriminate. intros [= <-].
    rewrite removeTags_string.
    rewrite (tag_free_fixed _ (replace_tags_tag_free s)).
    split; [reflexivity|]. eexists. split; [reflexivity|].
    apply replace_tags_tag_free.
  - intros [= <-]. split; [reflexivity|]. now exists "".
Qed.

Lemma removeTags_idempotent_witness :
  removeTags (VStr "<>b>") = Ok (VStr "<>b>")
  /\ tag_free "<>b>" = true.
Proof.
  destruct (removeTags_idempotent (VStr "<><i>b>") (VStr "<>b>"))
    as (H & t & Ht & Hfree).
  - reflexivity.
  - split; [exact H|]. injection Ht as <-. exact Hfree.
Defined.

(** X13. [removeTags] returns a text as it is exactly when no tag starts
    anywhere in it; such are the texts without [<] and the texts without
    [>]. *)
Theorem removeTags_unchanged (s : string) :
  (removeTags (VStr s) = Ok (VStr s) <-> tag_free s = true)
  /\ (occurs "<" s = false -> tag_free s = true)
  /\ (occurs ">" s = false -> tag_free s = true).
Proof.
  rewrite removeTags_string.
  split; [|split; [apply tag_free_no_lt | apply tag_free_no_gt]].
  split.
  - intros [= H]. rewrite <- H. apply replace_tags_tag_free.
  - intros H. now rewrite tag_free_fixed.
Qed.

Lemma removeTags_unchanged_witness :
  removeTags (VStr "a > b, 3 <> 4") = Ok (VStr "a > b, 3 <> 4").
Proof.
  apply (proj1 (removeTags_unchanged "a > b, 3 <> 4")). reflexivity.
Defined.

Lemma replace_tags_app (before s : string) :
  occurs "<" before = false ->
  replace_tags (before ++ s) = before ++ replace_tags s.
Proof.
  induction before as [|c rest IH]; [reflexivity|]. simpl occurs.
  intros H. apply orb_false_iff in H as [Hc Hrest].
  cbn [append]. rewrite replace_tags_step, match_tag_head.
  - now rewrite IH.
  - intros ->. discriminate.
Qed.

Lemma after_gt_app (name after : string) :
  occurs ">" name = false ->
  after_gt (name ++ String ">" after) = Some after.
Proof.
  induction name as [|c rest IH]; simpl; [reflexivity|].
  destruct (Ascii.eqb c ">"); simpl; [discriminate | exact IH].
Qed.

(** X14. A tag is removed whole and the text before it is kept: when
    [before] has no [<] and [name] is not empty and has no [>],
    [removeTags] of [before<name>after] is [before] followed by what
    [removeTags] makes of [after]. *)
Theorem removeTags_strips_tag (before name after : string) :
  occurs "<" before = false ->
  name <> "" ->
  occurs ">" name = false ->
  exists t,
    removeTags (VStr after) = Ok (VStr t)
    /\ removeTags (VStr (before ++ String "<" (name ++ String ">" after)))
       = Ok (VStr (before ++ t)).
Proof.
  intros Hbefore Hname Hgt. exists (replace_tags after).
  rewrite !removeTags_string. split; [reflexivity|].
  rewrite (replace_tags_app _ _ Hbefore). do 3 f_equal.
  rewrite replace_tags_step, match_tag_lt.
  destruct name as [|c rest]; [contradiction|]. cbn [append].
  simpl in Hgt. apply orb_false_iff in Hgt as [Hc Hrest].
  rewrite Hc. now rewrite (after_gt_app _ _ Hrest).
Qed.

Lemma removeTags_strips_tag_witness :
  removeTags (VStr "Hello <b class=x>world</b>!")
  = Ok (VStr "Hello world!").
Proof.
  destruct (removeTags_strips_tag "Hello " "b class=x" "world</b>!")
    as (t & Ht & H); [reflexivity | discriminate | reflexivity |].
  vm_compute in Ht. injection Ht as <-. exact H.
Defined.

Lemma replace_tags_length (s : string) :
  (String.length (replace_tags s) <= String.length s)%nat.
Proof.
  induction s as [s IH] using string_length_ind.
  destruct s as [|c rest]; [simpl; lia|].
  rewrite replace_tags_step.
  destruct (match_tag (String c rest)) as [tail|] eqn:Ht.
  - apply match_tag_shorter in Ht. specialize (IH tail Ht). lia.
  - simpl. specialize (IH rest). simpl in IH. lia.
Qed.

(** X15. What [removeTags] does with each kind of input: every falsy
    input (undefined, null, the empty string, 0, NaN, false) gives the
    empty string; a string gives a string that is never longer; and a
    truthy input that is not a string makes it throw. *)
Theorem removeTags_cases (input : value) :
  (truthy input = false -> removeTags input = Ok (VStr ""))
  /\ (forall s, input = VStr s ->
        exists t, removeTags input = Ok (VStr t)
                  /\ (String.length t <= String.length s)%nat)
  /\ (truthy input = true -> is_string input = false ->
      removeTags input = Throw TypeError).
Proof.
  split; [|split].
  - unfold removeTags. now intros ->.
  - intros s ->. rewrite removeTags_string. eexists.
    split; [reflexivity | apply replace_tags_length].
  - unfold removeTags. intros -> Hs. now destruct input.
Qed.

Lemma removeTags_cases_witness :
  removeTags VNull = Ok (VStr "")
  /\ removeTags (VInt 42) = Throw TypeError.
Proof.
  split.
  - apply (proj1 (removeTags_cases VNull)). reflexivity.
  - apply (proj2 (proj2 (removeTags_cases (VInt 42)))); reflexivity.
Defined.

(** X16. The field throws while rendering exactly when [stripTags] is on
    and the value is truthy without being a string, a number for one.
    For a null or undefined value it shows [emptyText] when there is one,
    whatever [stripTags] is. *)
Theorem RichTextField_children_throws
        (fieldValue emptyText stripTags : value) :
  (RichTextField_children fieldValue emptyText stripTags = Throw TypeError
   <-> truthy stripTags = true /\ truthy fieldValue = true
       /\ is_string fieldValue = false)
  /\ (not_nullish fieldValue = false -> truthy emptyText = true ->
      RichTextField_children fieldValue emptyText stripTags
      = Ok (Text emptyText)).
Proof.
  unfold RichTextField_children. split.
  - destruct (negb (not_nullish fieldValue) && truthy emptyText) eqn:Hempty.
    + apply andb_true_iff in Hempty as [Hnull _].
      split; [discriminate|]. intros (_ & Ht & _).
      now destruct fieldValue.
    + destruct (truthy stripTags); [|split; [discriminate | now intros []]].
      unfold removeTags. destruct (truthy fieldValue) eqn:Ht.
      * destruct fieldValue; simpl; split; try discriminate; auto;
          now intros (_ & _ & ?).
      * simpl. split; [discriminate | now intros (_ & ? & _)].
  - intros Hnull Hempty. now rewrite Hnull, Hempty.
Qed.

Lemma RichTextField_children_throws_witness :
  RichTextField_children (VInt 42) (VStr "n/a") (VBool true)
  = Throw TypeError
  /\ RichTextField_children VUndefined (VStr "n/a") (VBool true)
     = Ok (Text (VStr "n/a")).
Proof.
  split.
  - apply (proj1 (RichTextField_children_throws (VInt 42) (VStr "n/a")
                    (VBool true))).
    repeat split.
  - apply (proj2 (RichTextField_children_throws VUndefined (VStr "n/a")
                    (VBool true))); reflexivity.
Defined.

(** ** sanitizeRestProps *)

Lemma filter_keys_get (p : string -> bool) (o : obj) (k : string) :
  has_key (List.filter (fun kv => p (fst kv)) o) k = has_key o k && p k
  /\ get (List.filter (fun kv => p (fst kv)) o) k
     = (if p k then get o k else VUndefined).
Proof.
  induction o as [|[k' v'] rest [IHk IHg]]; cbn [List.filter has_key get fst].
  - split; [reflexivity | now destruct (p k)].
  - destruct (String.eqb_spec k' k) as [->|Hne].
    + destruct (p k) eqn:Hp; cbn [has_key get].
      * rewrite String.eqb_refl. split; reflexivity.
      * rewrite IHk, IHg, ?Hp. split; [apply andb_false_r | reflexivity].
    + destruct (p k'); cbn [has_key get orb].
      * destruct (String.eqb_spec k' k); [contradiction|].
        split; assumption.
      * split; assumption.
Qed.

Lemma filter_twice {A : Type} (p : A -> bool) (l : list A) :
  List.filter p (List.filter p l) = List.filter p l.
Proof.
  induction l as [|x rest IH]; [reflexivity|]. cbn [List.filter].
  destruct (p x) eqn:Hp; [|exact IH].
  cbn [List.filter]. now rewrite Hp, IH.
Qed.

(** X17. [sanitizeRestProps] drops the props it names and nothing else:
    a named prop is absent from the result, every other prop is there
    exactly when it was passed, with its value; sanitizing twice is the
    same as sanitizing once. *)
Theorem sanitizeRestProps_rest (props : obj) (k : string) :
  has_key (sanitizeRestProps props) k
  = has_key props k && negb (existsb (String.eqb k) sanitizedProps)
  /\ get (sanitizeRestProps props) k
     = (if existsb (String.eqb k) sanitizedProps then VUndefined
        else get props k)
  /\ sanitizeRestProps (sanitizeRestProps props) = sanitizeRestProps props.
Proof.
  unfold sanitizeRestProps.
  destruct (filter_keys_get
              (fun x => negb (existsb (String.eqb x) sanitizedProps))
              props k) as [Hk Hg].
  split; [exact Hk|]. split; [|apply filter_twice].
  rewrite Hg. now destruct (existsb (String.eqb k) sanitizedProps).
Qed.

(** ** More on the hook *)

Section HookEdges.

Variable parse : string -> obj.
Variable JSON_parse : string -> result value.
Variable stringify : obj -> string.
Variable JSON_stringify : value -> value.
Variable options : ListParamsOptions.

Local Abbreviation query_at := (query_of parse JSON_parse options).
Local Abbreviation elapse_to :=
  (elapse parse JSON_parse stringify JSON_stringify options).
Local Abbreviation call_hideFilter :=
  (hideFilter parse JSON_parse stringify JSON_stringify options).
Local Abbreviation call_showFilter :=
  (showFilter parse JSON_parse stringify JSON_stringify options).
Local Abbreviation wait := (debounce_of options).

(** X18. [showFilter] without a default value only marks the filter as
    displayed: made while no debounced call is due, it leaves the
    location, the store, the log of dispatches and the pending call as
    they are, and [setFilters] is not called. *)
Theorem showFilter_without_default (w : world) (now : Z) (name : string) :
  quiet wait now w = true ->
  call_showFilter now name VUndefined w
  = Ok (mkWorld (search w) (params w) [(name, VBool true)] (pending w)
          (log w)).
Proof.
  intros Hq. unfold showFilter.
  rewrite (elapse_quiet parse JSON_parse stringify JSON_stringify options
             now w Hq).
  cbn [bind].
  destruct (query_of_returns parse JSON_parse options w) as [q ->].
  reflexivity.
Qed.

(** X19. Hiding a filter that has no value is free of side effects: when
    no debounced call is waiting and [name] is not a key of the current
    filter values, [hideFilter] marks the filter as not displayed, and
    at no later time is anything pushed or dispatched. *)
Theorem hideFilter_without_value (w : world) (now later : Z)
        (name : string) (query : obj) :
  pending w = None ->
  query_at w = Ok query ->
  well_formed (filterValues_of query) = true ->
  has_key (spread (filterValues_of query)) name = false ->
  exists w1 w2,
    call_hideFilter now name w = Ok w1
    /\ elapse_to later w1 = Ok w2
    /\ displayedFilters w2 = [(name, VBool false)]
    /\ log w2 = log w /\ search w2 = search w /\ params w2 = params w.
Proof.
  intros Hp Hq Hwf Habsent.
  rewrite (hideFilter_idle parse JSON_parse stringify JSON_stringify options
             w now name query Hp Hq).
  set (w1 := mkWorld _ _ _ _ _).
  assert (Hsame : removeKey (filterValues_of query) name
                  = filterValues_of query).
  { destruct (filterValues_of query); try reflexivity.
    simpl in *. now rewrite del_absent. }
  assert (Heq : isEqual (removeKey (filterValues_of query) name)
                  (filterValues_of query) = true)
    by (rewrite Hsame; now apply isEqual_refl).
  destruct (Z.le_gt_cases (now + wait) later) as [Hdue | Hearly].
  - destruct (elapse_fires parse JSON_parse stringify JSON_stringify options
                later w1 _ now query eq_refl Hdue Hq)
      as (w2 & Hw2 & Hl & _ & Hsame' & _).
    destruct (Hsame' Heq) as [Hs Hpar].
    exists w1, w2. split; [reflexivity|]. split; [exact Hw2|].
    destruct (applyFilters_cases stringify JSON_stringify options query
                (removeKey (filterValues_of query) name)) as (Hnone & _ & _).
    rewrite (Hnone Heq), app_nil_r in Hl.
    destruct (elapse_returns parse JSON_parse stringify JSON_stringify
                options later w1) as (w2' & Hw2' & Hd).
    rewrite Hw2 in Hw2'. injection Hw2' as <-.
    repeat split; assumption.
  - exists w1, w1. split; [reflexivity|].
    rewrite (elapse_early parse JSON_parse stringify JSON_stringify options
               later w1 _ now eq_refl) by lia.
    repeat split; reflexivity.
Qed.

End HookEdges.

Lemma showFilter_without_default_witness :
  posts_showFilter 0 "status" VUndefined open_world
  = Ok (mkWorld "" (params open_world) [("status", VBool true)] None []).
Proof.
  apply (showFilter_without_default QueryString.parse JSON.parse
           QueryString.stringify JSON.stringify posts_options open_world 0
           "status").
  reflexivity.
Defined.

Lemma hideFilter_without_value_witness :
  exists w1 w2,
    posts_hideFilter 0 "author" open_world = Ok w1
    /\ posts_elapse 500 w1 = Ok w2
    /\ displayedFilters w2 = [("author", VBool false)]
    /\ log w2 = [] /\ params w2 = params open_world.
Proof.
  destruct (hideFilter_without_value QueryString.parse JSON.parse
              QueryString.stringify JSON.stringify posts_options open_world
              0 500 "author"
              [("filter", VObj [("status", VStr "open")]);
               ("sort", VStr "id"); ("order", VStr "ASC");
               ("perPage", VInt 10); ("page", VInt 1)])
    as (w1 & w2 & H1 & H2 & Hd & Hl & _ & Hp).
  - reflexivity.
  - vm_compute. reflexivity.
  - reflexivity.
  - reflexivity.
  - exists w1, w2. repeat split; assumption.
Defined.

